(** * ShelfSense: the simulation API route

    A shallow embedding of [src/app/api/simulation/route.ts]: the product
    catalogue, [generateShelfSnapshot], [generateStoreAnalytics] and the
    [GET] handler, followed by the properties of the telemetry core, and of
    what the simulation page [src/app/secret/page.tsx] does with the
    snapshot it fetches: the colours of the condition and the log window.

    Modelling choices.
    - A JavaScript number is an exact rational ([Q]); binary64 rounding is
      left out.  The results of [/] are of type [number], which adds [NaN]
      and the two infinities to the rationals, since the code divides by
      lengths that can be zero.  The sign of zero is not modelled.
    - [Math.random()] and the clock are read from the [World]: the k-th call
      of [Math.random()] returns [random_src w k].  JavaScript promises
      [0 <= Math.random() < 1]; that promise is the predicate [unit_source]
      and is assumed only where a property needs it.
    - Reading a property of [undefined] throws a [TypeError]; computations
      live in a state-and-exception monad [JS], and [GET] catches.
    - [new Date().toISOString()] is kept as the clock reading it renders. *)

From Stdlib Require Import ZArith QArith Qround Qminmax Qabs String List Lia Lqa.
From stdpp Require Import base strings gmap pretty.
From Stdlib Require Import Ascii.

Local Open Scope Q_scope.

(** ** Numbers *)

Definition Qlt_bool (x y : Q) : bool := negb (Qle_bool y x).

Inductive number :=
| Finite (q : Q)
| NaN
| Infinity (negative : bool).

Definition num_add (a b : number) : number :=
  match a, b with
  | NaN, _ | _, NaN => NaN
  | Finite x, Finite y => Finite (x + y)
  | Infinity s, Finite _ | Finite _, Infinity s => Infinity s
  | Infinity s, Infinity t => if Bool.eqb s t then Infinity s else NaN
  end.

Definition num_mul (a b : number) : number :=
  match a, b with
  | NaN, _ | _, NaN => NaN
  | Finite x, Finite y => Finite (x * y)
  | Infinity s, Finite y | Finite y, Infinity s =>
      if Qeq_bool y 0 then NaN else Infinity (xorb s (Qlt_bool y 0))
  | Infinity s, Infinity t => Infinity (xorb s t)
  end.

Definition num_div (a b : number) : number :=
  match a, b with
  | NaN, _ | _, NaN => NaN
  | Finite x, Finite y =>
      if Qeq_bool y 0
      then (if Qeq_bool x 0 then NaN else Infinity (Qlt_bool x 0))
      else Finite (x / y)
  | Finite _, Infinity _ => Finite 0
  | Infinity s, Finite y => Infinity (xorb s (Qlt_bool y 0))
  | Infinity _, Infinity _ => NaN
  end.

Definition of_nat (n : nat) : Q := inject_Z (Z.of_nat n).

(** ** The world: random source and clock *)

Record World := mkWorld {
  random_src : nat -> Q;
  random_pos : nat;
  clock_src : nat -> Z;
  clock_pos : nat
}.

Inductive JsError := TypeError.

Inductive Completion (A : Type) :=
| Normal (a : A) (w : World)
| Throw (e : JsError).
Arguments Normal {A} a w.
Arguments Throw {A} e.

Definition JS (A : Type) : Type := World -> Completion A.

#[global] Instance JS_ret : MRet JS := fun A a w => Normal a w.

#[global] Instance JS_bind : MBind JS := fun A B f c w =>
  match c w with
  | Normal a w' => f a w'
  | Throw e => Throw e
  end.

Definition throw {A} (e : JsError) : JS A := fun _ => Throw e.

Definition Math_random : JS Q := fun w =>
  Normal (random_src w (random_pos w))
         (mkWorld (random_src w) (S (random_pos w)) (clock_src w) (clock_pos w)).

Definition Date_now : JS Z := fun w =>
  Normal (clock_src w (clock_pos w))
         (mkWorld (random_src w) (random_pos w) (clock_src w) (S (clock_pos w))).

Definition Math_floor (x : Q) : Z := Qfloor x.

(** [Math.floor(Math.random() * n) + k] *)
Definition random_int (n k : Z) : JS Z :=
  r ← Math_random; mret (Math_floor (r * inject_Z n) + k)%Z.

(** [for (let i = start; i < start + steps; i++) acc.push(body(i))] *)
Fixpoint for_push {A} (body : nat -> JS A) (i steps : nat) (acc : list A)
  : JS (list A) :=
  match steps with
  | O => mret acc
  | S k => x ← body i; for_push body (S i) k (acc ++ [x])
  end.

(** [a[i]] for a number [i]: [undefined] outside the array *)
Definition index {A} (a : list A) (i : Z) : option A :=
  if (i <? 0)%Z then None else a !! Z.to_nat i.

(** ** Data *)

Module Product.
Record t := mk {
    id : string; name : string; category : string; price : Q; brand : string
  }.
End Product.

Module Bbox.
Record t := mk { x : Z; y : Z; width : Z; height : Z }.
End Bbox.

Module Detection.
Record t := mk {
    detection_id : string;
    product_id : string;
    product_name : string;
    category : string;
    brand : string;
    confidence : Q;
    bbox : Bbox.t;
    is_misplaced : bool;
    is_low_stock : bool;
    timestamp : Z
  }.
End Detection.

Module Metrics.
Record t := mk {
    total_products : nat;
    unique_products : nat;
    avg_confidence : number;
    total_value : Q;
    misplaced_count : nat;
    low_stock_count : nat
  }.
End Metrics.

Module Condition.
Record t := mk { overall_score : Q; condition : string; alerts : nat }.
End Condition.

Module Snapshot.
Record t := mk {
    snapshot_id : string;
    shelf_id : string;
    store_id : string;
    timestamp : Z;
    detections : list Detection.t;
    metrics : Metrics.t;
    condition : Condition.t;
    processing_time_ms : Z
  }.
End Snapshot.

Module Summary.
Record t := mk {
    total_shelves : Z;
    total_products : nat;
    total_value : Q;
    avg_confidence : number;
    total_alerts : nat;
    efficiency_score : number
  }.
End Summary.

Module Performance.
Record t := mk {
    excellent_shelves : nat;
    good_shelves : nat;
    fair_shelves : nat;
    poor_shelves : nat
  }.
End Performance.

Module Analytics.
Record t := mk {
    store_id : string;
    timestamp : Z;
    summary : Summary.t;
    shelf_snapshots : list Snapshot.t;
    performance : Performance.t
  }.
End Analytics.

(** ** The product catalogue *)

Definition PRODUCTS : list Product.t :=
  [ Product.mk "P001" "Coca Cola 2L" "Beverages" 2.99 "Coca Cola";
    Product.mk "P002" "Pepsi 2L" "Beverages" 2.79 "Pepsi";
    Product.mk "P003" "Sprite 2L" "Beverages" 2.89 "Coca Cola";
    Product.mk "P004" "Mountain Dew 2L" "Beverages" 2.99 "Pepsi";
    Product.mk "P005" "Lays Classic" "Snacks" 3.49 "Lays";
    Product.mk "P006" "Doritos Nacho" "Snacks" 3.79 "Doritos";
    Product.mk "P007" "Cheetos Puffs" "Snacks" 3.29 "Cheetos";
    Product.mk "P008" "Pringles Original" "Snacks" 2.99 "Pringles";
    Product.mk "P009" "Tide Detergent" "Household" 12.99 "Tide";
    Product.mk "P010" "Bounty Paper Towels" "Household" 8.99 "Bounty" ].

(** ** [generateShelfSnapshot] *)

(** One turn of the loop of lines 21-40: the object pushed at index [i]. *)
Definition generateDetection (shelfId : string) (i : nat) : JS Detection.t :=
  r ← Math_random;
  let product := index PRODUCTS (Math_floor (r * of_nat (length PRODUCTS))) in
  now ← Date_now;
  match product with
  | None => throw TypeError
  | Some product =>
      r ← Math_random;
      x ← random_int 1600 50;
      y ← random_int 800 50;
      width ← random_int 120 80;
      height ← random_int 150 100;
      m ← Math_random;
      l ← Math_random;
      ts ← Date_now;
      mret (Detection.mk
              ("det_" +:+ shelfId +:+ "_" +:+ pretty i +:+ "_" +:+ pretty now)
              (Product.id product)
              (Product.name product)
              (Product.category product)
              (Product.brand product)
              (0.85 + r * 0.14)
              (Bbox.mk x y width height)
              (Qlt_bool m 0.05)
              (Qlt_bool l 0.15)
              ts)
  end.

(** [PRODUCTS.find(p => p.id === id)] *)
Definition find_product (id : string) : option Product.t :=
  List.find (fun p => String.eqb (Product.id p) id) PRODUCTS.

(** [product?.price || 0] *)
Definition price_or_zero (product : option Product.t) : Q :=
  match product with
  | Some p => if Qeq_bool (Product.price p) 0 then 0 else Product.price p
  | None => 0
  end.

Definition totalValue (detections : list Detection.t) : Q :=
  fold_left
    (fun sum d => sum + price_or_zero (find_product (Detection.product_id d)))
    detections 0.

Definition misplacedCount (detections : list Detection.t) : nat :=
  length (filter (fun d => Detection.is_misplaced d = true) detections).

Definition lowStockCount (detections : list Detection.t) : nat :=
  length (filter (fun d => Detection.is_low_stock d = true) detections).

Definition conditionScore (misplaced lowStock : nat) (numProducts : Z) : Q :=
  Qmax 0 (100 - of_nat misplaced * 10 - of_nat lowStock * 5
          + (inject_Z numProducts / 20) * 30).

Definition conditionName (score : Q) : string :=
  let condition := "Excellent"%string in
  let condition := if Qlt_bool score 85 then "Good"%string else condition in
  let condition := if Qlt_bool score 70 then "Fair"%string else condition in
  let condition := if Qlt_bool score 50 then "Poor"%string else condition in
  condition.

Definition uniqueProducts (detections : list Detection.t) : nat :=
  size (list_to_set (map Detection.product_id detections) : gset string).

Definition avgConfidence (detections : list Detection.t) : number :=
  num_div
    (Finite (fold_left (fun sum d => sum + Detection.confidence d) detections 0))
    (Finite (of_nat (length detections))).

Definition generateShelfSnapshot (shelfId storeId : string) : JS Snapshot.t :=
  numProducts ← random_int 15 10;
  detections ← for_push (generateDetection shelfId) 0 (Z.to_nat numProducts) [];
  let misplaced := misplacedCount detections in
  let lowStock := lowStockCount detections in
  let alerts := (misplaced + lowStock)%nat in
  let score := conditionScore misplaced lowStock numProducts in
  now ← Date_now;
  ts ← Date_now;
  ms ← random_int 170 80;
  mret (Snapshot.mk
          ("snap_" +:+ shelfId +:+ "_" +:+ pretty now)
          shelfId
          storeId
          ts
          detections
          (Metrics.mk (length detections)
                      (uniqueProducts detections)
                      (avgConfidence detections)
                      (totalValue detections)
                      misplaced
                      lowStock)
          (Condition.mk score (conditionName score) alerts)
          ms).

(** ** [generateStoreAnalytics] *)

(** The default value of the parameter [numShelves].  The parameter is
    taken to be an integer, as every call in the repository has it. *)
Definition numShelves_default : Z := 12.

(** [shelves.filter(s => s.condition.condition === name).length] *)
Definition shelves_named (name : string) (shelves : list Snapshot.t) : nat :=
  length (filter
    (fun s => Condition.condition (Snapshot.condition s) = name) shelves).

Definition generateStoreAnalytics (storeId : string) (numShelves : Z)
  : JS Analytics.t :=
  shelves ← for_push
    (fun i => generateShelfSnapshot ("shelf_" +:+ pretty (i + 1)%nat) storeId)
    0 (Z.to_nat numShelves) [];
  let totalProducts :=
    fold_left (fun sum s => (sum + Metrics.total_products (Snapshot.metrics s))%nat)
              shelves 0%nat in
  let totalValue :=
    fold_left (fun sum s => sum + Metrics.total_value (Snapshot.metrics s))
              shelves 0 in
  let avgConfidence :=
    num_div
      (fold_left (fun sum s => num_add sum (Metrics.avg_confidence (Snapshot.metrics s)))
                 shelves (Finite 0))
      (Finite (of_nat (length shelves))) in
  let totalAlerts :=
    fold_left (fun sum s => (sum + Condition.alerts (Snapshot.condition s))%nat)
              shelves 0%nat in
  let shelvesGood :=
    length (filter
      (fun s => Qle_bool 70 (Condition.overall_score (Snapshot.condition s)) = true)
      shelves) in
  let efficiency :=
    num_mul (num_div (Finite (of_nat shelvesGood)) (Finite (inject_Z numShelves)))
            (Finite 100) in
  ts ← Date_now;
  mret (Analytics.mk
          storeId
          ts
          (Summary.mk numShelves totalProducts totalValue avgConfidence
                      totalAlerts efficiency)
          shelves
          (Performance.mk (shelves_named "Excellent" shelves)
                          (shelves_named "Good" shelves)
                          (shelves_named "Fair" shelves)
                          (shelves_named "Poor" shelves))).

(** ** The [GET] handler *)

(** The three results of [searchParams.get]; [None] is [null]. *)
Module Request.
Record t := mk {
    type : option string; storeId : option string; shelfId : option string
  }.
End Request.

Inductive Body :=
| ShelfJson (snapshot : Snapshot.t)
| StoreJson (analytics : Analytics.t)
| ErrorJson (error : string).

Record Response := mkResponse { body : Body; status : Z }.

(** A string or [null] in a condition: [null] and the empty string are falsy. *)
Definition truthy (v : option string) : bool :=
  match v with
  | Some s => negb (String.eqb s "")
  | None => false
  end.

(** [v || d] *)
Definition or_else (v : option string) (d : string) : string :=
  match v with
  | Some s => if String.eqb s "" then d else s
  | None => d
  end.

Definition GET (request : Request.t) (w : World) : Response :=
  let type := or_else (Request.type request) "store" in
  let storeId := or_else (Request.storeId request) "store_001" in
  let shelfId := Request.shelfId request in
  if String.eqb type "shelf" && truthy shelfId then
    match generateShelfSnapshot (default ""%string shelfId) storeId w with
    | Normal snapshot _ => mkResponse (ShelfJson snapshot) 200
    | Throw _ => mkResponse (ErrorJson "Simulation failed") 500
    end
  else if String.eqb type "store" then
    match generateStoreAnalytics storeId numShelves_default w with
    | Normal analytics _ => mkResponse (StoreJson analytics) 200
    | Throw _ => mkResponse (ErrorJson "Simulation failed") 500
    end
  else mkResponse (ErrorJson "Invalid request type") 400.

(** ** The stream scheduler *)

Module Stream.

Inductive EventType := detection | alert | status.

Record Weights := mkWeights {
    w_detection : Q; w_alert : Q; w_status : Q
  }.

Record Config := mkConfig {
    cameraCount : Z;
    durationSeconds : Q;
    frameRate : Q;
    weights : Weights
  }.

Record StreamEvent := mkEvent {
    type : EventType; cameraId : nat; tick : nat
  }.

Inductive Error := InvalidConfiguration.

Record Outcome := mkOutcome {
    failure : option Error;
    emitted : list StreamEvent
  }.

Definition weight_sum (ws : Weights) : Q :=
    w_detection ws + w_alert ws + w_status ws.

Definition tolerance : Q := 1e-6.

  (** Modelled from the spec: the validation of [simulate] (section 4.5);
      the stream simulator itself is not among the sources.  The weights sum
      to 1.0 within the tolerance and the three sizes are positive. *)
Definition valid (cfg : Config) : bool :=
    Qle_bool (Qabs (weight_sum (weights cfg) - 1)) tolerance
    && (0 <? cameraCount cfg)%Z
    && Qlt_bool 0 (durationSeconds cfg)
    && Qlt_bool 0 (frameRate cfg).

  (** Modelled from the spec: the weighted draw of an event type from a
      number [u] of the unit interval. *)
Definition draw_type (ws : Weights) (u : Q) : EventType :=
    if Qlt_bool u (w_detection ws) then detection
    else if Qlt_bool u (w_detection ws + w_alert ws) then alert
    else status.

  (** Modelled from the spec: [simulate] of section 4.5, run to the end of
      its duration without cancellation.  It validates first; a valid run has
      every camera emit one event per frame interval.  [draws c t] is the
      random number camera [c] draws at tick [t]; the events are listed tick
      by tick, the interleaving inside a tick being left out. *)
Definition simulate (cfg : Config) (draws : nat -> nat -> Q) : Outcome :=
    if valid cfg then
      let ticks := Z.to_nat (Qfloor (durationSeconds cfg * frameRate cfg)) in
      let cameras := Z.to_nat (cameraCount cfg) in
      mkOutcome None
        (flat_map
           (fun t => map (fun c => mkEvent (draw_type (weights cfg) (draws c t)) c t)
                         (seq 0 cameras))
           (seq 0 ticks))
    else mkOutcome (Some InvalidConfiguration) [].

End Stream.

(** ** Worlds used in the examples *)

(** Every call of [Math.random()] returns [q]; the whole run falls within
    one millisecond of the clock. *)
Definition constant_world (q : Q) : World :=
  mkWorld (fun _ => q) 0 (fun _ => 1700000000000%Z) 0.

(** The promise of [Math.random()]: every number is in [[0, 1)]. *)
Definition unit_src (src : nat -> Q) : Prop :=
  forall k, 0 <= src k /\ src k < 1.

Definition unit_source (w : World) : Prop := unit_src (random_src w).

(** ** Reasoning about [JS] computations *)

(** [outcome t c w post]: run in [w], [c] either completes normally with a
    result and a world that satisfy [post], or throws and [t] holds.  With
    [t := False] this is total correctness, with [t := True] partial. *)
Definition outcome {A} (t : Prop) (c : JS A) (w : World)
    (post : A -> World -> Prop) : Prop :=
  match c w with
  | Normal a w' => post a w'
  | Throw _ => t
  end.

(** What a detection of the loop looks like, given the random source. *)
Definition generated_from (src : nat -> Q) (d : Detection.t) : Prop :=
  (exists p, p ∈ PRODUCTS /\ Detection.product_id d = Product.id p)
  /\ (exists k, Detection.confidence d = 0.85 + src k * 0.14).

(** What [generateShelfSnapshot] returns, given the random source and the
    number of products it drew. *)
Definition snapshot_of (src : nat -> Q) (numProducts : Z) (s : Snapshot.t)
  : Prop :=
  let ds := Snapshot.detections s in
  let score :=
    conditionScore (misplacedCount ds) (lowStockCount ds) numProducts in
  length ds = Z.to_nat numProducts
  /\ Forall (generated_from src) ds
  /\ Snapshot.metrics s =
       Metrics.mk (length ds) (uniqueProducts ds) (avgConfidence ds)
                  (totalValue ds) (misplacedCount ds) (lowStockCount ds)
  /\ Snapshot.condition s =
       Condition.mk score (conditionName score)
                    (misplacedCount ds + lowStockCount ds).

(** What [generateStoreAnalytics] returns, given the random source and the
    number of shelves. *)
Definition analytics_of (src : nat -> Q) (numShelves : Z) (a : Analytics.t)
  : Prop :=
  let shelves := Analytics.shelf_snapshots a in
  length shelves = Z.to_nat numShelves
  /\ Forall (fun s => exists n, snapshot_of src n s) shelves
  /\ Analytics.performance a =
       Performance.mk (shelves_named "Excellent" shelves)
                      (shelves_named "Good" shelves)
                      (shelves_named "Fair" shelves)
                      (shelves_named "Poor" shelves).

(** The number of products [generateShelfSnapshot] draws in [w]. *)
Definition drawn_numProducts (w : World) : Z :=
  (Math_floor (random_src w (random_pos w) * inject_Z 15) + 10)%Z.

(** ** The metrics in the words of the specification

    A second definition of each metric, written from section 4.3 of the
    specification; the theorems compare them with what the code computes. *)
Module SpecMetrics.

  (** "size of the set of distinct productIds" *)
Definition distinct_productIds (ds : list Detection.t) : nat :=
    length (remove_dups (map Detection.product_id ds)).





End SpecMetrics.


Ltac unit_constant :=
  intros ?; split; vm_compute; [intros ?; discriminate | reflexivity].

(** ** The generators, field by field *)

(** The bounding box of a detection, given the random source. *)
Definition bbox_from (src : nat -> Q) (b : Bbox.t) : Prop :=
  (exists k, Bbox.x b = (Math_floor (src k * inject_Z 1600) + 50)%Z)
  /\ (exists k, Bbox.y b = (Math_floor (src k * inject_Z 800) + 50)%Z)
  /\ (exists k, Bbox.width b = (Math_floor (src k * inject_Z 120) + 80)%Z)
  /\ (exists k, Bbox.height b = (Math_floor (src k * inject_Z 150) + 100)%Z).

(** The detection pushed at index [i] of the loop. *)
Definition detection_at (src : nat -> Q) (shelfId : string) (i : nat)
    (d : Detection.t) : Prop :=
  (exists p,
     p ∈ PRODUCTS
     /\ Detection.product_id d = Product.id p
     /\ Detection.product_name d = Product.name p
     /\ Detection.category d = Product.category p
     /\ Detection.brand d = Product.brand p)
  /\ (exists now : Z,
        Detection.detection_id d
        = "det_" +:+ shelfId +:+ "_" +:+ pretty i +:+ "_" +:+ pretty now)
  /\ (exists k, Detection.confidence d = 0.85 + src k * 0.14)
  /\ bbox_from src (Detection.bbox d).

(** The snapshot [generateShelfSnapshot shelfId storeId] returns. *)
Definition snapshot_at (src : nat -> Q) (shelfId storeId : string)
    (s : Snapshot.t) : Prop :=
  (exists k, snapshot_of src (Math_floor (src k * inject_Z 15) + 10)%Z s)
  /\ Snapshot.shelf_id s = shelfId
  /\ Snapshot.store_id s = storeId
  /\ (exists now : Z,
        Snapshot.snapshot_id s = "snap_" +:+ shelfId +:+ "_" +:+ pretty now)
  /\ (exists k,
        Snapshot.processing_time_ms s
        = (Math_floor (src k * inject_Z 170) + 80)%Z)
  /\ (forall i d, Snapshot.detections s !! i = Some d ->
                  detection_at src shelfId i d).

(** The [summary] object of lines 89-107, as a function of the shelves. *)
Definition summary_of (numShelves : Z) (shelves : list Snapshot.t)
  : Summary.t :=
  Summary.mk
    numShelves
    (fold_left
       (fun sum s => (sum + Metrics.total_products (Snapshot.metrics s))%nat)
       shelves 0%nat)
    (fold_left (fun sum s => sum + Metrics.total_value (Snapshot.metrics s))
               shelves 0)
    (num_div
       (fold_left
          (fun sum s => num_add sum (Metrics.avg_confidence (Snapshot.metrics s)))
          shelves (Finite 0))
       (Finite (of_nat (length shelves))))
    (fold_left (fun sum s => (sum + Condition.alerts (Snapshot.condition s))%nat)
               shelves 0%nat)
    (num_mul
       (num_div
          (Finite (of_nat (length (filter
             (fun s => Qle_bool 70 (Condition.overall_score (Snapshot.condition s))
                       = true)
             shelves))))
          (Finite (inject_Z numShelves)))
       (Finite 100)).

(** The analytics [generateStoreAnalytics storeId numShelves] returns. *)
Definition store_at (src : nat -> Q) (storeId : string) (numShelves : Z)
    (a : Analytics.t) : Prop :=
  let shelves := Analytics.shelf_snapshots a in
  analytics_of src numShelves a
  /\ Analytics.store_id a = storeId
  /\ Analytics.summary a = summary_of numShelves shelves
  /\ (forall k s, shelves !! k = Some s ->
                  snapshot_at src ("shelf_" +:+ pretty (k + 1)%nat) storeId s).

(** The character [c] does not occur in [s]. *)
Fixpoint free_of (c : ascii) (s : string) : Prop :=
  match s with
  | EmptyString => True
  | String c' s' => c' <> c /\ free_of c s'
  end.

(** ** The simulation page, [src/app/secret/page.tsx]

    What the page does with the snapshot it fetches from the route. *)

(** The class of the condition badge, chosen by the name (lines 329-334). *)
Definition badge_class (condition : string) : string :=
  if String.eqb condition "Excellent" then "bg-green-500/20 text-green-400"
  else if String.eqb condition "Good" then "bg-blue-500/20 text-blue-400"
  else if String.eqb condition "Fair" then "bg-yellow-500/20 text-yellow-400"
  else "bg-red-500/20 text-red-400".

(** The class of the score bar, chosen by the score (lines 341-346). *)
Definition bar_class (overall_score : Q) : string :=
  if Qle_bool 85 overall_score then "bg-green-500"
  else if Qle_bool 70 overall_score then "bg-blue-500"
  else if Qle_bool 50 overall_score then "bg-yellow-500"
  else "bg-red-500".

(** Bar and badge of the same colour. *)
Inductive same_colour : string -> string -> Prop :=
| same_green : same_colour "bg-green-500" "bg-green-500/20 text-green-400"
| same_blue : same_colour "bg-blue-500" "bg-blue-500/20 text-blue-400"
| same_yellow : same_colour "bg-yellow-500" "bg-yellow-500/20 text-yellow-400"
| same_red : same_colour "bg-red-500" "bg-red-500/20 text-red-400".

(** [prev.slice(-n)] *)
Definition slice_last {A} (n : nat) (prev : list A) : list A :=
  drop (length prev - n) prev.

(** The line [addLog] writes: [time] is the rendered local time. *)
Definition log_line (time message : string) : string :=
  "[" +:+ time +:+ "] " +:+ message.

(** The state update of [addLog] (line 41). *)
Definition addLog (time message : string) (prev : list string) : list string :=
  slice_last 9 prev ++ [log_line time message].

(** The log after a sequence of [addLog], oldest call first. *)
Definition addLogs (calls : list (string * string)) (logs : list string)
  : list string :=
  fold_left (fun prev c => addLog (fst c) (snd c) prev) calls logs.

(** * Properties *)

(** ** The monad *)

Lemma outcome_ret {A} t (a : A) w post :
  post a w -> outcome t (mret a) w post.
Proof. intros H; exact H. Qed.

Lemma outcome_bind {A B} t (c : JS A) (f : A -> JS B) w post :
  outcome t c w (fun a w' => outcome t (f a) w' post) ->
  outcome t (c ≫= f) w post.
Proof.
  unfold outcome, mbind, JS_bind. destruct (c w) as [a w'|e]; auto.
Qed.

Lemma outcome_weaken {A} (t t' : Prop) (c : JS A) w (post post' : A -> World -> Prop) :
  (t -> t') -> (forall a w', post a w' -> post' a w') ->
  outcome t c w post -> outcome t' c w post'.
Proof.
  unfold outcome. intros Ht Hp. destruct (c w); auto.
Qed.

Lemma outcome_normal {A} t (c : JS A) w post a w' :
  outcome t c w post -> c w = Normal a w' -> post a w'.
Proof. unfold outcome. intros H E. rewrite E in H. exact H. Qed.

Lemma outcome_total {A} (c : JS A) w post :
  outcome False c w post -> exists a w', c w = Normal a w' /\ post a w'.
Proof.
  unfold outcome. destruct (c w) as [a w'|e]; [eauto | tauto].
Qed.

Lemma outcome_Math_random t w (post : Q -> World -> Prop) :
  post (random_src w (random_pos w))
       (mkWorld (random_src w) (S (random_pos w)) (clock_src w) (clock_pos w)) ->
  outcome t Math_random w post.
Proof. intros H; exact H. Qed.

Lemma outcome_Date_now t w (post : Z -> World -> Prop) :
  post (clock_src w (clock_pos w))
       (mkWorld (random_src w) (random_pos w) (clock_src w) (S (clock_pos w))) ->
  outcome t Date_now w post.
Proof. intros H; exact H. Qed.

Lemma outcome_random_int t n k w (post : Z -> World -> Prop) :
  post (Math_floor (random_src w (random_pos w) * inject_Z n) + k)%Z
       (mkWorld (random_src w) (S (random_pos w)) (clock_src w) (clock_pos w)) ->
  outcome t (random_int n k) w post.
Proof. intros H; exact H. Qed.

(** The loop: an invariant [inv] of the world and a property [P] of every
    pushed element. *)
Lemma outcome_for_push {A} t (inv : World -> Prop) (P : A -> Prop)
    (body : nat -> JS A) :
  (forall i w, inv w -> outcome t (body i) w (fun a w' => P a /\ inv w')) ->
  forall steps i acc w,
    inv w -> Forall P acc ->
    outcome t (for_push body i steps acc) w
      (fun l w' => inv w' /\ Forall P l
                   /\ length l = (length acc + steps)%nat).
Proof.
  intros Hbody steps.
  induction steps as [|steps IH]; intros i acc w Hinv Hacc; cbn [for_push].
  - apply outcome_ret. repeat split; auto.
  - apply outcome_bind.
    eapply outcome_weaken; [exact (fun x => x) | | exact (Hbody i w Hinv)].
    intros a w' [Ha Hw'].
    eapply outcome_weaken; [exact (fun x => x) | | apply IH; [exact Hw'|]].
    + intros l w'' (? & ? & Hlen). repeat split; auto.
      rewrite Hlen, length_app. cbn. lia.
    + apply Forall_app. split; [exact Hacc | repeat constructor; exact Ha].
Qed.

(** ** Arithmetic of the draws *)

Lemma floor_scale_range (r : Q) (n : Z) :
  0 <= r -> r < 1 -> (0 < n)%Z ->
  (0 <= Math_floor (r * inject_Z n) < n)%Z.
Proof.
  intros H0 H1 Hn. unfold Math_floor.
  assert (Hn' : 0 < inject_Z n) by (unfold Qlt; cbn; lia).
  split.
  - change 0%Z with (Qfloor 0). apply Qfloor_resp_le.
    apply Qmult_le_0_compat; [exact H0 | apply Qlt_le_weak; exact Hn'].
  - rewrite Zlt_Qlt.
    eapply Qle_lt_trans; [apply Qfloor_le|].
    apply Qlt_le_trans with (1 * inject_Z n).
    + apply Qmult_lt_compat_r; assumption.
    + rewrite Qmult_1_l. apply Qle_refl.
Qed.

Lemma Qlt_bool_iff (x y : Q) : Qlt_bool x y = true <-> x < y.
Proof.
  unfold Qlt_bool. rewrite negb_true_iff.
  destruct (Qle_bool y x) eqn:E.
  - apply Qle_bool_iff in E. split; [discriminate|].
    intros H. exfalso. exact (Qlt_not_le _ _ H E).
  - split; [intros _|reflexivity].
    apply Qnot_le_lt. intros H. apply Qle_bool_iff in H. congruence.
Qed.

Lemma Qlt_bool_false_iff (x y : Q) : Qlt_bool x y = false <-> y <= x.
Proof.
  unfold Qlt_bool. rewrite negb_false_iff. apply Qle_bool_iff.
Qed.

Lemma index_unit_draw {A} (a : list A) (r : Q) :
  0 <= r -> r < 1 -> a <> [] ->
  exists x, index a (Math_floor (r * of_nat (length a))) = Some x.
Proof.
  intros H0 H1 Ha.
  assert (Hlen : (0 < Z.of_nat (length a))%Z) by (destruct a; [congruence | cbn; lia]).
  destruct (floor_scale_range r _ H0 H1 Hlen) as [Hlo Hhi].
  unfold index, of_nat.
  destruct (Z.ltb_spec (Math_floor (r * inject_Z (Z.of_nat (length a)))) 0) as [?|_]; [lia|].
  apply lookup_lt_is_Some_2. lia.
Qed.

Lemma index_elem_of {A} (a : list A) (i : Z) (x : A) :
  index a i = Some x -> x ∈ a.
Proof.
  unfold index. destruct (i <? 0)%Z; [discriminate|].
  apply list_elem_of_lookup_2.
Qed.

(** ** The detection loop *)

Lemma generateDetection_outcome (src : nat -> Q) shelfId i w :
  random_src w = src ->
  outcome (~ unit_src src) (generateDetection shelfId i) w
    (fun d w' => generated_from src d /\ random_src w' = src).
Proof.
  intros Hsrc. unfold generateDetection.
  apply outcome_bind, outcome_Math_random. cbv beta zeta.
  apply outcome_bind, outcome_Date_now.
  destruct (index PRODUCTS _) as [product|] eqn:Hidx.
  - apply outcome_bind, outcome_Math_random.
    do 4 apply outcome_bind, outcome_random_int.
    do 2 apply outcome_bind, outcome_Math_random.
    apply outcome_bind, outcome_Date_now.
    apply outcome_ret. cbn [random_src random_pos].
    split; [split|exact Hsrc].
    + exists product. split; [eapply index_elem_of; exact Hidx | reflexivity].
    + cbn [Detection.confidence]. rewrite Hsrc. eauto.
  - unfold outcome, throw. intros Hunit.
    destruct (Hunit (random_pos w)) as [H0 H1]. rewrite <- Hsrc in H0, H1.
    destruct (index_unit_draw PRODUCTS _ H0 H1) as [x Hx]; [discriminate|].
    cbn [random_src] in Hidx. congruence.
Qed.

Lemma generateShelfSnapshot_outcome shelfId storeId w :
  outcome (~ unit_source w) (generateShelfSnapshot shelfId storeId) w
    (fun s w' => snapshot_of (random_src w) (drawn_numProducts w) s
                 /\ random_src w' = random_src w).
Proof.
  unfold generateShelfSnapshot.
  apply outcome_bind, outcome_random_int. fold (drawn_numProducts w).
  apply outcome_bind.
  eapply outcome_weaken;
    [exact (fun x => x) | |
     apply (outcome_for_push _ (fun w' => random_src w' = random_src w)
              (generated_from (random_src w)))].
  - intros ds w' (Hw' & Hds & Hlen). cbv beta zeta.
    do 2 apply outcome_bind, outcome_Date_now.
    apply outcome_bind, outcome_random_int.
    apply outcome_ret. cbn [random_src].
    split; [|exact Hw'].
    unfold snapshot_of. cbn [Snapshot.detections Snapshot.metrics Snapshot.condition].
    repeat split; auto.
  - intros i w' Hw'. apply generateDetection_outcome. exact Hw'.
  - reflexivity.
  - constructor.
Qed.

Lemma generateShelfSnapshot_built shelfId storeId w s w' :
  generateShelfSnapshot shelfId storeId w = Normal s w' ->
  snapshot_of (random_src w) (drawn_numProducts w) s
  /\ random_src w' = random_src w.
Proof.
  intros E.
  exact (outcome_normal _ _ _ _ _ _ (generateShelfSnapshot_outcome _ _ _) E).
Qed.

Lemma generateShelfSnapshot_returns shelfId storeId w :
  unit_source w ->
  exists s w',
    generateShelfSnapshot shelfId storeId w = Normal s w'
    /\ snapshot_of (random_src w) (drawn_numProducts w) s.
Proof.
  intros Hunit.
  destruct (outcome_total (generateShelfSnapshot shelfId storeId) w
              (fun s _ => snapshot_of (random_src w) (drawn_numProducts w) s))
    as (s & w' & E & Hs).
  - eapply outcome_weaken; [| | apply generateShelfSnapshot_outcome].
    + intros Hn. exact (Hn Hunit).
    + intros a w' [Ha _]. exact Ha.
  - eauto.
Qed.

Lemma drawn_numProducts_range w :
  unit_source w -> (10 <= drawn_numProducts w <= 24)%Z.
Proof.
  intros Hunit. destruct (Hunit (random_pos w)) as [H0 H1].
  unfold drawn_numProducts.
  pose proof (floor_scale_range _ 15 H0 H1 eq_refl). lia.
Qed.

(** Every count from 10 to 24 is drawn by some random source. *)
Lemma drawn_numProducts_onto (count : Z) :
  (10 <= count <= 24)%Z ->
  exists q, unit_source (constant_world q)
            /\ drawn_numProducts (constant_world q) = count.
Proof.
  intros Hc. exists (inject_Z (count - 10) / 15). split.
  - intros k. cbn. unfold Qle, Qlt. cbn. lia.
  - unfold drawn_numProducts, Math_floor. cbn [constant_world random_src random_pos].
    assert (E : inject_Z (count - 10) / 15 * inject_Z 15 == inject_Z (count - 10))
      by (field).
    rewrite (Qfloor_comp _ _ E), Qfloor_Z. lia.
Qed.

(** ** The condition score and its category *)

Lemma conditionScore_nonneg misplaced lowStock numProducts :
  0 <= conditionScore misplaced lowStock numProducts.
Proof. unfold conditionScore. apply Q.le_max_l. Qed.

Lemma conditionName_thresholds (score : Q) :
  (85 <= score -> conditionName score = "Excellent"%string)
  /\ (70 <= score -> score < 85 -> conditionName score = "Good"%string)
  /\ (50 <= score -> score < 70 -> conditionName score = "Fair"%string)
  /\ (score < 50 -> conditionName score = "Poor"%string).
Proof.
  unfold conditionName.
  destruct (Qlt_bool score 85) eqn:E85, (Qlt_bool score 70) eqn:E70,
           (Qlt_bool score 50) eqn:E50;
    repeat match goal with
    | H : Qlt_bool _ _ = true |- _ => apply Qlt_bool_iff in H
    | H : Qlt_bool _ _ = false |- _ => apply Qlt_bool_false_iff in H
    end;
    repeat split; intros; try reflexivity; exfalso;
    repeat match goal with
    | H : _ <= _ |- _ => unfold Qle in H; cbn in H
    | H : _ < _ |- _ => unfold Qlt in H; cbn in H
    end; lia.
Qed.

Lemma conditionName_cases (score : Q) :
  conditionName score ∈ ["Excellent"; "Good"; "Fair"; "Poor"]%string.
Proof.
  unfold conditionName.
  destruct (Qlt_bool score 85), (Qlt_bool score 70), (Qlt_bool score 50);
    set_solver.
Qed.

(** C1: where [Math.random()] answers 0.5 at every call the shelf has 17
    products, none of them flagged, and the condition score of the snapshot
    is 100 + (17/20)*30 = 125.5: the score is not kept below 100. *)
Theorem C1_score_exceeds_100 :
  outcome False (generateShelfSnapshot "shelf_1" "store_1") (constant_world (1#2))
    (fun s _ =>
       length (Snapshot.detections s) = 17%nat
       /\ Metrics.misplaced_count (Snapshot.metrics s) = 0%nat
       /\ Metrics.low_stock_count (Snapshot.metrics s) = 0%nat
       /\ Condition.overall_score (Snapshot.condition s) == 125.5
       /\ 100 < Condition.overall_score (Snapshot.condition s)).
Proof. vm_compute. repeat split. Qed.

(** The part of the score formula the code does have: the lower clamp. *)
Lemma score_formula shelfId storeId w s w' :
  generateShelfSnapshot shelfId storeId w = Normal s w' ->
  Condition.overall_score (Snapshot.condition s) ==
    Qmax 0 (100 - of_nat (Metrics.misplaced_count (Snapshot.metrics s)) * 10
            - of_nat (Metrics.low_stock_count (Snapshot.metrics s)) * 5
            + (inject_Z (drawn_numProducts w) / 20) * 30)
  /\ 0 <= Condition.overall_score (Snapshot.condition s).
Proof.
  intros E. destruct (generateShelfSnapshot_built _ _ _ _ _ E) as [(_ & _ & Hm & Hc) _].
  rewrite Hm, Hc. cbn [Condition.overall_score Metrics.misplaced_count Metrics.low_stock_count].
  split; [reflexivity | apply conditionScore_nonneg].
Qed.

(** The score is above 100 whenever no detection is flagged. *)
Lemma score_without_flags shelfId storeId w s w' :
  unit_source w ->
  generateShelfSnapshot shelfId storeId w = Normal s w' ->
  Metrics.misplaced_count (Snapshot.metrics s) = 0%nat ->
  Metrics.low_stock_count (Snapshot.metrics s) = 0%nat ->
  115 <= Condition.overall_score (Snapshot.condition s).
Proof.
  intros Hunit E Hm Hl.
  destruct (score_formula _ _ _ _ _ E) as [Hscore _].
  rewrite Hscore, Hm, Hl.
  eapply Qle_trans; [|apply Q.le_max_r].
  pose proof (drawn_numProducts_range w Hunit) as [Hlo _].
  assert (Hq : 10 <= inject_Z (drawn_numProducts w))
    by (rewrite (Zle_Qle 10) in Hlo; exact Hlo).
  set (n := inject_Z (drawn_numProducts w)) in *.
  assert (Hexpr : 100 - of_nat 0 * 10 - of_nat 0 * 5 + (n / 20) * 30
                  == 100 + n * (3 # 2)) by (unfold of_nat; cbn; field).
  rewrite Hexpr. lra.
Qed.

(** C2, as the code has it: the builder takes no count.  It returns a
    snapshot whose number of detections is a number from 10 to 24 that it
    draws itself, and [total_products] is that number of detections. *)
Theorem C2_snapshot_has_drawn_count shelfId storeId w :
  unit_source w ->
  exists s w',
    generateShelfSnapshot shelfId storeId w = Normal s w'
    /\ (10 <= length (Snapshot.detections s) <= 24)%nat
    /\ Metrics.total_products (Snapshot.metrics s)
       = length (Snapshot.detections s).
Proof.
  intros Hunit.
  destruct (generateShelfSnapshot_returns shelfId storeId w Hunit)
    as (s & w' & E & Hlen & _ & Hm & _).
  pose proof (drawn_numProducts_range w Hunit) as Hrange.
  exists s, w'. rewrite Hm. cbn [Metrics.total_products].
  split; [exact E|]. split; [lia | reflexivity].
Qed.

Lemma C2_drawn_count_witness :
  exists s w',
    generateShelfSnapshot "shelf_1" "store_1" (constant_world (3#8)) = Normal s w'
    /\ (10 <= length (Snapshot.detections s) <= 24)%nat
    /\ Metrics.total_products (Snapshot.metrics s)
       = length (Snapshot.detections s).
Proof.
  apply (C2_snapshot_has_drawn_count "shelf_1" "store_1" (constant_world (3#8))).
  unit_constant.
Defined.

(** The scenario of 15 detections: [Math.random()] answering 0.375. *)
Example snapshot_of_15 :
  outcome False (generateShelfSnapshot "shelf_1" "store_1") (constant_world (3#8))
    (fun s _ =>
       length (Snapshot.detections s) = 15%nat
       /\ Metrics.total_products (Snapshot.metrics s) = 15%nat).
Proof. vm_compute. split; reflexivity. Qed.

(** Where [Math.random()] answers 0.5 the snapshot has 17 detections. *)
Lemma half_source_has_17 :
  outcome False (generateShelfSnapshot "shelf_1" "store_1") (constant_world (1#2))
    (fun s _ => length (Snapshot.detections s) = 17%nat).
Proof. vm_compute. reflexivity. Qed.

(** C2 as stated fails: the count is no argument of the builder.  Asked, as
    it were, for 15 where [Math.random()] answers 0.5, it returns 17
    detections. *)
Lemma C2_count_is_no_argument_counterexample :
  ~ (forall (shelfId storeId : string) (count : Z) (w : World),
       unit_source w -> (10 <= count <= 24)%Z ->
       exists s w',
         generateShelfSnapshot shelfId storeId w = Normal s w'
         /\ Z.of_nat (length (Snapshot.detections s)) = count
         /\ Z.of_nat (Metrics.total_products (Snapshot.metrics s)) = count).
Proof.
  intros H.
  destruct (H "shelf_1"%string "store_1"%string 15%Z (constant_world (1#2)))
    as (s & w' & E & Hlen & _); [unit_constant | lia |].
  pose proof (outcome_normal _ _ _ _ _ _ half_source_has_17 E) as H17.
  cbv beta in H17. lia.
Qed.

(** C6: the category of a snapshot follows from its score by the fixed
    thresholds 85, 70 and 50. *)
Theorem C6_category_by_thresholds shelfId storeId w s w' :
  generateShelfSnapshot shelfId storeId w = Normal s w' ->
  let score := Condition.overall_score (Snapshot.condition s) in
  let category := Condition.condition (Snapshot.condition s) in
  (85 <= score -> category = "Excellent"%string)
  /\ (70 <= score -> score < 85 -> category = "Good"%string)
  /\ (50 <= score -> score < 70 -> category = "Fair"%string)
  /\ (score < 50 -> category = "Poor"%string).
Proof.
  intros E. destruct (generateShelfSnapshot_built _ _ _ _ _ E) as [(_ & _ & _ & Hc) _].
  rewrite Hc. cbn [Condition.overall_score Condition.condition].
  apply conditionName_thresholds.
Qed.

Lemma C6_half_source_witness :
  exists s w',
    generateShelfSnapshot "shelf_1" "store_1" (constant_world (1#2)) = Normal s w'
    /\ let score := Condition.overall_score (Snapshot.condition s) in
       let category := Condition.condition (Snapshot.condition s) in
       (85 <= score -> category = "Excellent"%string)
       /\ (70 <= score -> score < 85 -> category = "Good"%string)
       /\ (50 <= score -> score < 70 -> category = "Fair"%string)
       /\ (score < 50 -> category = "Poor"%string).
Proof.
  destruct (generateShelfSnapshot "shelf_1" "store_1" (constant_world (1#2)))
    as [s w'|e] eqn:E.
  - exists s, w'. split; [reflexivity|].
    exact (C6_category_by_thresholds _ _ _ _ _ E).
  - vm_compute in E. discriminate E.
Defined.

(** ** The metrics *)


Lemma of_nat_nonzero (n : nat) : n <> 0%nat -> Qeq_bool (of_nat n) 0 = false.
Proof.
  intros Hn. destruct (Qeq_bool (of_nat n) 0) eqn:E; [|reflexivity].
  apply Qeq_bool_eq in E. unfold of_nat, Qeq in E. cbn in E. lia.
Qed.


Lemma uniqueProducts_distinct (ds : list Detection.t) :
  uniqueProducts ds = SpecMetrics.distinct_productIds ds.
Proof.
  unfold uniqueProducts, SpecMetrics.distinct_productIds.
  rewrite <- (size_list_to_set (C := gset string) _ (NoDup_remove_dups _)).
  f_equal. apply set_eq. intros x.
  rewrite !elem_of_list_to_set, elem_of_remove_dups. reflexivity.
Qed.




Section Catalogue.
Variable catalogue : list Product.t.
Hypothesis distinct_ids : NoDup (map Product.id catalogue).

End Catalogue.

Lemma PRODUCTS_distinct_ids : NoDup (map Product.id PRODUCTS).
Proof.
  apply (bool_decide_unpack (NoDup (map Product.id PRODUCTS))).
  vm_compute. exact I.
Qed.




(** ** Confidence and catalogue membership of the detections *)

(** C8: the confidence of every generated detection lies between 0.85 and
    0.99, [Math.random()] answering in the unit interval. *)
Theorem C8_confidence_range shelfId storeId w s w' :
  unit_source w ->
  generateShelfSnapshot shelfId storeId w = Normal s w' ->
  Forall (fun d => 0.85 <= Detection.confidence d
                   /\ Detection.confidence d <= 0.99)
         (Snapshot.detections s).
Proof.
  intros Hunit E.
  destruct (generateShelfSnapshot_built _ _ _ _ _ E) as [(_ & Hds & _) _].
  eapply Forall_impl; [exact Hds|].
  intros d [_ [k Hk]]. destruct (Hunit k) as [H0 H1].
  rewrite Hk. split; lra.
Qed.

Lemma C8_half_source_witness :
  exists s w',
    generateShelfSnapshot "shelf_1" "store_1" (constant_world (1#2)) = Normal s w'
    /\ Forall (fun d => 0.85 <= Detection.confidence d
                        /\ Detection.confidence d <= 0.99)
              (Snapshot.detections s).
Proof.
  destruct (generateShelfSnapshot "shelf_1" "store_1" (constant_world (1#2)))
    as [s w'|e] eqn:E.
  - exists s, w'. split; [reflexivity|].
    apply (C8_confidence_range "shelf_1" "store_1" (constant_world (1#2)) s w').
    + unit_constant.
    + exact E.
  - vm_compute in E. discriminate E.
Defined.

Lemma PRODUCTS_found :
  Forall (fun p => find_product (Product.id p) = Some p
                   /\ price_or_zero (Some p) = Product.price p
                   /\ ~ Product.price p == 0)
         PRODUCTS.
Proof.
  unfold PRODUCTS.
  repeat (constructor; [repeat split; try reflexivity; intros H; discriminate H|]).
  constructor.
Qed.

(** C10: the product id of every detection of a snapshot is the id of a
    product of the catalogue, so the lookup behind [total_value] finds that
    product and adds its price, never the fallback 0. *)
Theorem C10_detections_in_catalogue shelfId storeId w s w' :
  generateShelfSnapshot shelfId storeId w = Normal s w' ->
  length PRODUCTS = 10%nat
  /\ Forall (fun d =>
        exists p,
          p ∈ PRODUCTS
          /\ Product.id p = Detection.product_id d
          /\ find_product (Detection.product_id d) = Some p
          /\ price_or_zero (find_product (Detection.product_id d))
             = Product.price p
          /\ ~ Product.price p == 0)
       (Snapshot.detections s).
Proof.
  intros E. split; [reflexivity|].
  destruct (generateShelfSnapshot_built _ _ _ _ _ E) as [(_ & Hds & _) _].
  eapply Forall_impl; [exact Hds|].
  intros d [(p & Hp & Hid) _]. exists p.
  destruct (proj1 (Forall_forall _ _) PRODUCTS_found p Hp) as (Hfind & Hprice & Hnz).
  rewrite Hid, Hfind. auto.
Qed.

Lemma C10_third_source_witness :
  exists s w',
    generateShelfSnapshot "shelf_1" "store_1" (constant_world (1#3)) = Normal s w'
    /\ length PRODUCTS = 10%nat
    /\ Forall (fun d =>
          exists p,
            p ∈ PRODUCTS
            /\ Product.id p = Detection.product_id d
            /\ find_product (Detection.product_id d) = Some p
            /\ price_or_zero (find_product (Detection.product_id d))
               = Product.price p
            /\ ~ Product.price p == 0)
         (Snapshot.detections s).
Proof.
  destruct (generateShelfSnapshot "shelf_1" "store_1" (constant_world (1#3)))
    as [s w'|e] eqn:E.
  - exists s, w'. split; [reflexivity|].
    exact (C10_detections_in_catalogue _ _ _ _ _ E).
  - vm_compute in E. discriminate E.
Defined.

(** ** The store *)

Lemma generateStoreAnalytics_outcome storeId numShelves w :
  outcome (~ unit_source w) (generateStoreAnalytics storeId numShelves) w
    (fun a w' => analytics_of (random_src w) numShelves a
                 /\ random_src w' = random_src w).
Proof.
  unfold generateStoreAnalytics.
  apply outcome_bind.
  eapply outcome_weaken;
    [exact (fun x => x) | |
     apply (outcome_for_push _ (fun w' => random_src w' = random_src w)
              (fun s => exists n, snapshot_of (random_src w) n s))].
  - intros shelves w' (Hw' & Hshelves & Hlen). cbv beta zeta.
    apply outcome_bind, outcome_Date_now.
    apply outcome_ret. cbn [random_src].
    split; [|exact Hw'].
    unfold analytics_of. cbn [Analytics.shelf_snapshots Analytics.performance].
    repeat split; auto.
  - intros i w' Hw'.
    eapply outcome_weaken; [| | apply generateShelfSnapshot_outcome].
    + unfold unit_source. rewrite Hw'. exact (fun x => x).
    + intros s w'' [Hs Hw'']. rewrite Hw' in Hs, Hw''. eauto.
  - reflexivity.
  - constructor.
Qed.

Lemma snapshot_of_named src n s :
  snapshot_of src n s ->
  Condition.condition (Snapshot.condition s)
    ∈ ["Excellent"; "Good"; "Fair"; "Poor"]%string.
Proof.
  intros (_ & _ & _ & Hc). rewrite Hc. cbn [Condition.condition].
  apply conditionName_cases.
Qed.

(** Shelves whose category is one of the four names are counted once. *)
Lemma buckets_partition (shelves : list Snapshot.t) :
  Forall (fun s => Condition.condition (Snapshot.condition s)
                     ∈ ["Excellent"; "Good"; "Fair"; "Poor"]%string) shelves ->
  (shelves_named "Excellent" shelves + shelves_named "Good" shelves
   + shelves_named "Fair" shelves + shelves_named "Poor" shelves)%nat
  = length shelves.
Proof.
  unfold shelves_named.
  induction 1 as [|s shelves Hs _ IH]; [reflexivity|].
  rewrite !filter_cons. cbn [length]. rewrite <- IH.
  repeat (apply elem_of_cons in Hs as [Hs|Hs]);
    [rewrite Hs; repeat case_decide; try done; cbn [length]; lia .. |].
  apply elem_of_nil in Hs. contradiction.
Qed.

(** C9: the four bucket counts of the analytics of N > 0 shelves sum to N,
    the number of shelf snapshots. *)
Theorem C9_buckets_sum_to_shelf_count storeId (N : Z) w :
  unit_source w ->
  (0 < N)%Z ->
  exists a w',
    generateStoreAnalytics storeId N w = Normal a w'
    /\ Z.of_nat (length (Analytics.shelf_snapshots a)) = N
    /\ let p := Analytics.performance a in
       Z.of_nat (Performance.excellent_shelves p + Performance.good_shelves p
                 + Performance.fair_shelves p + Performance.poor_shelves p) = N.
Proof.
  intros Hunit HN.
  destruct (outcome_total (generateStoreAnalytics storeId N) w
              (fun a _ => analytics_of (random_src w) N a))
    as (a & w' & E & Hlen & Hshelves & Hp).
  - eapply outcome_weaken; [| | apply generateStoreAnalytics_outcome].
    + intros Hn. exact (Hn Hunit).
    + intros a w' [Ha _]. exact Ha.
  - exists a, w'. split; [exact E|]. split; [lia|].
    cbv zeta. rewrite Hp.
    cbn [Performance.excellent_shelves Performance.good_shelves
         Performance.fair_shelves Performance.poor_shelves].
    rewrite buckets_partition; [lia|].
    eapply Forall_impl; [exact Hshelves|].
    intros s [n Hs]. eapply snapshot_of_named. exact Hs.
Qed.

Lemma C9_store_of_12_witness :
  exists a w',
    generateStoreAnalytics "store_1" 12 (constant_world (1#2)) = Normal a w'
    /\ Z.of_nat (length (Analytics.shelf_snapshots a)) = 12%Z
    /\ let p := Analytics.performance a in
       Z.of_nat (Performance.excellent_shelves p + Performance.good_shelves p
                 + Performance.fair_shelves p + Performance.poor_shelves p)
       = 12%Z.
Proof.
  apply (C9_buckets_sum_to_shelf_count "store_1" 12 (constant_world (1#2))).
  - unit_constant.
  - lia.
Defined.

(** Without a positive number of shelves the loop does not run; all that
    happens to the world is one reading of the clock. *)
Lemma generateStoreAnalytics_no_shelves storeId (N : Z) w :
  (N <= 0)%Z ->
  generateStoreAnalytics storeId N w =
    Normal
      (Analytics.mk storeId (clock_src w (clock_pos w))
         (Summary.mk N 0 0 NaN 0
            (num_mul (num_div (Finite 0) (Finite (inject_Z N))) (Finite 100)))
         []
         (Performance.mk 0 0 0 0))
      (mkWorld (random_src w) (random_pos w) (clock_src w) (S (clock_pos w))).
Proof.
  intros HN. unfold generateStoreAnalytics.
  rewrite (Z2Nat.nonpos N HN). reflexivity.
Qed.

(** C4, as the code has it: a shelf count that is not positive is no error.
    The aggregator returns analytics of no shelf at all, with zero totals,
    zero buckets and no average, having generated no snapshot (no random
    number is drawn). *)
Theorem C4_nonpositive_count_builds_empty storeId (N : Z) w :
  (N <= 0)%Z ->
  exists a w',
    generateStoreAnalytics storeId N w = Normal a w'
    /\ Analytics.shelf_snapshots a = []
    /\ Analytics.performance a = Performance.mk 0 0 0 0
    /\ Summary.total_shelves (Analytics.summary a) = N
    /\ Summary.total_products (Analytics.summary a) = 0%nat
    /\ Summary.total_value (Analytics.summary a) = 0
    /\ Summary.total_alerts (Analytics.summary a) = 0%nat
    /\ Summary.avg_confidence (Analytics.summary a) = NaN
    /\ random_pos w' = random_pos w.
Proof.
  intros HN. eexists _, _.
  split; [apply generateStoreAnalytics_no_shelves; exact HN|].
  repeat split.
Qed.

Lemma C4_zero_witness :
  exists a w',
    generateStoreAnalytics "store_1" 0 (constant_world (1#2)) = Normal a w'
    /\ Analytics.shelf_snapshots a = []
    /\ Analytics.performance a = Performance.mk 0 0 0 0
    /\ Summary.total_shelves (Analytics.summary a) = 0%Z
    /\ Summary.total_products (Analytics.summary a) = 0%nat
    /\ Summary.total_value (Analytics.summary a) = 0
    /\ Summary.total_alerts (Analytics.summary a) = 0%nat
    /\ Summary.avg_confidence (Analytics.summary a) = NaN
    /\ random_pos w' = random_pos (constant_world (1#2)).
Proof.
  apply (C4_nonpositive_count_builds_empty "store_1" 0 (constant_world (1#2))).
  lia.
Defined.

(** C4 as stated fails: for 0 shelves, and for -3, the aggregator completes
    normally instead of failing. *)
Lemma C4_no_error_counterexample :
  ~ (forall (storeId : string) (N : Z) (w : World),
       (N <= 0)%Z -> exists e, generateStoreAnalytics storeId N w = Throw e).
Proof.
  intros H.
  destruct (H "store_1"%string 0%Z (constant_world (1#2))) as [e He]; [lia|].
  vm_compute in He. discriminate He.
Qed.

(** ** The request handler and the empty shelf id *)

Lemma generateDetection_returns shelfId i w :
  unit_source w -> exists d w', generateDetection shelfId i w = Normal d w'.
Proof.
  intros Hunit.
  destruct (outcome_total (generateDetection shelfId i) w (fun _ _ => True))
    as (d & w' & E & _); [|eauto].
  eapply outcome_weaken;
    [| | apply (generateDetection_outcome (random_src w)); reflexivity].
  - intros Hn. exact (Hn Hunit).
  - auto.
Qed.

Lemma GET_shelf_falsy store shelf w :
  truthy shelf = false ->
  GET (Request.mk (Some "shelf"%string) store shelf) w
  = mkResponse (ErrorJson "Invalid request type") 400.
Proof.
  intros Hfalsy. unfold GET. cbn [Request.type Request.shelfId].
  rewrite Hfalsy. reflexivity.
Qed.

Lemma GET_shelf_truthy store shelfId w :
  unit_source w -> shelfId <> ""%string ->
  exists s,
    GET (Request.mk (Some "shelf"%string) store (Some shelfId)) w
    = mkResponse (ShelfJson s) 200.
Proof.
  intros Hunit Hne. unfold GET.
  cbn [Request.type Request.shelfId Request.storeId truthy default].
  rewrite (proj2 (String.eqb_neq _ _) Hne).
  destruct (generateShelfSnapshot_returns shelfId (or_else store "store_001") w Hunit)
    as (s & w' & E & _).
  exists s.
  change (or_else (Some "shelf"%string) "store") with "shelf"%string.
  change (String.eqb "shelf" "shelf" && negb false) with true.
  cbv iota. change (id shelfId) with shelfId. rewrite E. reflexivity.
Qed.

(** C3, as the code has it: the generator validates nothing and succeeds for
    every shelf id, the empty one included.  It is the request handler that
    turns an empty or missing shelf id away: a request of type [shelf] is
    answered 400, "Invalid request type", and with a shelf id that is not
    empty it is answered with the snapshot. *)
Theorem C3_generator_total_handler_rejects shelfId storeId i store w :
  unit_source w ->
  (exists d w', generateDetection shelfId i w = Normal d w')
  /\ (exists s w', generateShelfSnapshot shelfId storeId w = Normal s w')
  /\ GET (Request.mk (Some "shelf"%string) store None) w
     = mkResponse (ErrorJson "Invalid request type") 400
  /\ if String.eqb shelfId ""
     then GET (Request.mk (Some "shelf"%string) store (Some shelfId)) w
          = mkResponse (ErrorJson "Invalid request type") 400
     else exists s,
          GET (Request.mk (Some "shelf"%string) store (Some shelfId)) w
          = mkResponse (ShelfJson s) 200.
Proof.
  intros Hunit. split; [|split; [|split]].
  - apply generateDetection_returns. exact Hunit.
  - destruct (generateShelfSnapshot_returns shelfId storeId w Hunit)
      as (s & w' & E & _). eauto.
  - apply GET_shelf_falsy. reflexivity.
  - destruct (String.eqb shelfId "") eqn:Hempty.
    + apply GET_shelf_falsy. cbn [truthy]. rewrite Hempty. reflexivity.
    + apply GET_shelf_truthy; [exact Hunit|].
      apply String.eqb_neq. exact Hempty.
Qed.

Lemma C3_empty_shelfId_witness :
  (exists d w', generateDetection "" 0 (constant_world (1#2)) = Normal d w')
  /\ (exists s w',
        generateShelfSnapshot "" "store_001" (constant_world (1#2)) = Normal s w')
  /\ GET (Request.mk (Some "shelf"%string) None None) (constant_world (1#2))
     = mkResponse (ErrorJson "Invalid request type") 400
  /\ GET (Request.mk (Some "shelf"%string) None (Some ""%string))
         (constant_world (1#2))
     = mkResponse (ErrorJson "Invalid request type") 400.
Proof.
  apply (C3_generator_total_handler_rejects "" "store_001" 0 None
           (constant_world (1#2))).
  unit_constant.
Defined.

(** The handler on the request of the dashboard, with a shelf id. *)
Example GET_shelf_demo :
  exists s,
    GET (Request.mk (Some "shelf"%string) (Some "store_demo"%string)
                    (Some "shelf_demo"%string)) (constant_world (1#2))
    = mkResponse (ShelfJson s) 200.
Proof. apply GET_shelf_truthy; [unit_constant | discriminate]. Qed.

(** C3 as stated fails: with the empty shelf id the generator returns a
    detection, whose id is ["det__0_1700000000000"]. *)
Lemma C3_empty_shelfId_counterexample :
  ~ (forall (i : nat) (w : World),
       unit_source w -> exists e, generateDetection "" i w = Throw e)
  /\ outcome False (generateDetection "" 0) (constant_world (1#2))
       (fun d _ => Detection.detection_id d = "det__0_1700000000000"%string).
Proof.
  split.
  - intros H.
    destruct (H 0%nat (constant_world (1#2))) as [e He]; [unit_constant|].
    vm_compute in He. discriminate He.
  - vm_compute. reflexivity.
Qed.

(** ** The stream scheduler *)

Lemma andb_false_any (a b c d : bool) :
  a = false \/ b = false \/ c = false \/ d = false ->
  a && b && c && d = false.
Proof. destruct a, b, c, d; intuition discriminate. Qed.

(** C5: a configuration whose weights do not sum to 1.0 within the
    tolerance, or whose camera count, duration or frame rate is not
    positive, makes [simulate] fail with [InvalidConfiguration], no event
    emitted. *)
Theorem C5_invalid_configuration_rejected (cfg : Stream.Config)
    (draws : nat -> nat -> Q) :
  ~ Qabs (Stream.weight_sum (Stream.weights cfg) - 1) <= Stream.tolerance
  \/ (Stream.cameraCount cfg <= 0)%Z
  \/ Stream.durationSeconds cfg <= 0
  \/ Stream.frameRate cfg <= 0 ->
  Stream.simulate cfg draws
  = Stream.mkOutcome (Some Stream.InvalidConfiguration) [].
Proof.
  intros H. unfold Stream.simulate.
  assert (Hv : Stream.valid cfg = false); [|rewrite Hv; reflexivity].
  unfold Stream.valid. apply andb_false_any.
  destruct H as [H|[H|[H|H]]].
  - left. destruct (Qle_bool _ _) eqn:E; [|reflexivity].
    apply Qle_bool_iff in E. contradiction.
  - right; left. apply Z.ltb_ge. exact H.
  - right; right; left. apply Qlt_bool_false_iff. exact H.
  - right; right; right. apply Qlt_bool_false_iff. exact H.
Qed.

Lemma C5_weights_sum_08_witness :
  Stream.simulate
    (Stream.mkConfig 4 30 30 (Stream.mkWeights 0.5 0.2 0.1)) (fun _ _ => 1#2)
  = Stream.mkOutcome (Some Stream.InvalidConfiguration) [].
Proof.
  apply (C5_invalid_configuration_rejected
           (Stream.mkConfig 4 30 30 (Stream.mkWeights 0.5 0.2 0.1))
           (fun _ _ => 1#2)).
  left. intros H. vm_compute in H. apply H. reflexivity.
Defined.

(** A configuration that passes the validation does not fail. *)
Lemma simulate_valid (cfg : Stream.Config) (draws : nat -> nat -> Q) :
  Stream.valid cfg = true ->
  Stream.failure (Stream.simulate cfg draws) = None.
Proof. intros Hv. unfold Stream.simulate. rewrite Hv. reflexivity. Qed.

(** * Further properties of the route *)

(** One statement of a computation: the bind is split and the world of the
    next statement is brought to a record of four fields. *)
Ltac js_step :=
  lazymatch goal with
  | |- outcome _ (mbind _ Math_random) _ _ =>
      apply outcome_bind, outcome_Math_random
  | |- outcome _ (mbind _ Date_now) _ _ =>
      apply outcome_bind, outcome_Date_now
  | |- outcome _ (mbind _ (random_int _ _)) _ _ =>
      apply outcome_bind, outcome_random_int
  end;
  cbn [random_src random_pos clock_src clock_pos].

(** ** The generators, field by field *)

(** The loop again, with a property of the element pushed at each index. *)
Lemma outcome_for_push_indexed {A} t (inv : World -> Prop)
    (P : nat -> A -> Prop) (body : nat -> JS A) :
  (forall i w, inv w -> outcome t (body i) w (fun a w' => P i a /\ inv w')) ->
  forall steps acc w,
    inv w -> (forall k a, acc !! k = Some a -> P k a) ->
    outcome t (for_push body (length acc) steps acc) w
      (fun l w' => inv w' /\ (forall k a, l !! k = Some a -> P k a)
                   /\ length l = (length acc + steps)%nat).
Proof.
  intros Hbody steps.
  induction steps as [|steps IH]; intros acc w Hinv Hacc; cbn [for_push].
  - apply outcome_ret. repeat split; auto.
  - apply outcome_bind.
    eapply outcome_weaken;
      [exact (fun x => x) | | exact (Hbody (length acc) w Hinv)].
    intros a w' [Ha Hw'].
    replace (S (length acc)) with (length (acc ++ [a]))
      by (rewrite length_app; cbn; lia).
    eapply outcome_weaken; [exact (fun x => x) | | apply IH; [exact Hw'|]].
    + intros l w'' (? & ? & Hlen). repeat split; auto.
      rewrite Hlen, length_app. cbn. lia.
    + intros k b Hk. apply lookup_snoc_Some in Hk as [[_ Hk]|[-> <-]].
      * exact (Hacc k b Hk).
      * exact Ha.
Qed.

Lemma generateDetection_at (src : nat -> Q) shelfId i w :
  random_src w = src ->
  outcome (~ unit_src src) (generateDetection shelfId i) w
    (fun d w' => detection_at src shelfId i d /\ random_src w' = src).
Proof.
  intros Hsrc. unfold generateDetection.
  js_step. cbv beta zeta. js_step.
  destruct (index PRODUCTS _) as [product|] eqn:Hidx.
  - do 8 js_step.
    apply outcome_ret. cbn [random_src].
    split; [|exact Hsrc].
    unfold detection_at, bbox_from.
    cbn [Detection.product_id Detection.product_name Detection.category
         Detection.brand Detection.detection_id Detection.confidence
         Detection.bbox Bbox.x Bbox.y Bbox.width Bbox.height].
    rewrite Hsrc. split; [|split; [|split; [|split; [|split; [|split]]]]]; eauto.
    exists product. split; [eapply index_elem_of; exact Hidx | auto].
  - unfold outcome, throw. intros Hunit.
    destruct (Hunit (random_pos w)) as [H0 H1]. rewrite <- Hsrc in H0, H1.
    destruct (index_unit_draw PRODUCTS _ H0 H1) as [x Hx]; [discriminate|].
    congruence.
Qed.

Lemma outcome_and {A} t (c : JS A) w (post1 post2 : A -> World -> Prop) :
  outcome t c w post1 -> outcome t c w post2 ->
  outcome t c w (fun a w' => post1 a w' /\ post2 a w').
Proof. unfold outcome. destruct (c w); auto. Qed.

Lemma generateShelfSnapshot_fields (src : nat -> Q) shelfId storeId w :
  random_src w = src ->
  outcome (~ unit_src src) (generateShelfSnapshot shelfId storeId) w
    (fun s _ =>
       Snapshot.shelf_id s = shelfId
       /\ Snapshot.store_id s = storeId
       /\ (exists now : Z,
             Snapshot.snapshot_id s = "snap_" +:+ shelfId +:+ "_" +:+ pretty now)
       /\ (exists k,
             Snapshot.processing_time_ms s
             = (Math_floor (src k * inject_Z 170) + 80)%Z)
       /\ (forall i d, Snapshot.detections s !! i = Some d ->
                       detection_at src shelfId i d)).
Proof.
  intros Hsrc. unfold generateShelfSnapshot.
  apply outcome_bind, outcome_random_int.
  apply outcome_bind.
  eapply outcome_weaken;
    [exact (fun x => x) | |
     apply (outcome_for_push_indexed _ (fun w' => random_src w' = src)
              (detection_at src shelfId) (generateDetection shelfId)
              (fun i w' Hw' => generateDetection_at src shelfId i w' Hw')
              _ [])].
  - intros ds w' (Hw' & Hds & _). cbv beta zeta.
    do 2 apply outcome_bind, outcome_Date_now.
    apply outcome_bind, outcome_random_int.
    apply outcome_ret.
    cbn [Snapshot.shelf_id Snapshot.store_id Snapshot.snapshot_id
         Snapshot.processing_time_ms Snapshot.detections
         random_src random_pos clock_src clock_pos].
    rewrite Hw'. split; [|split; [|split; [|split]]]; eauto.
  - exact Hsrc.
  - intros k a Hk. rewrite lookup_nil in Hk. discriminate.
Qed.

Lemma generateShelfSnapshot_at (src : nat -> Q) shelfId storeId w :
  random_src w = src ->
  outcome (~ unit_src src) (generateShelfSnapshot shelfId storeId) w
    (fun s w' => snapshot_at src shelfId storeId s /\ random_src w' = src).
Proof.
  intros Hsrc.
  pose proof (generateShelfSnapshot_outcome shelfId storeId w) as Hof.
  unfold unit_source, drawn_numProducts in Hof. rewrite Hsrc in Hof.
  eapply outcome_weaken;
    [exact (fun x => x) | |
     exact (outcome_and _ _ _ _ _ Hof
              (generateShelfSnapshot_fields src shelfId storeId w Hsrc))].
  intros s w' [[Hsnap Hw'] Hfields]. split; [|exact Hw'].
  split; [eauto | exact Hfields].
Qed.

(** A snapshot the generator returned, with what is known of it. *)
Lemma generateShelfSnapshot_at_normal shelfId storeId w s w' :
  generateShelfSnapshot shelfId storeId w = Normal s w' ->
  snapshot_at (random_src w) shelfId storeId s.
Proof.
  intros E.
  exact (proj1 (outcome_normal _ _ _ _ _ _
                  (generateShelfSnapshot_at _ shelfId storeId w eq_refl) E)).
Qed.

Lemma generateStoreAnalytics_fields (src : nat -> Q) storeId numShelves w :
  random_src w = src ->
  outcome (~ unit_src src) (generateStoreAnalytics storeId numShelves) w
    (fun a _ =>
       let shelves := Analytics.shelf_snapshots a in
       Analytics.store_id a = storeId
       /\ Analytics.summary a = summary_of numShelves shelves
       /\ (forall k s, shelves !! k = Some s ->
             snapshot_at src ("shelf_" +:+ pretty (k + 1)%nat) storeId s)).
Proof.
  intros Hsrc. unfold generateStoreAnalytics.
  apply outcome_bind.
  eapply outcome_weaken;
    [exact (fun x => x) | |
     apply (outcome_for_push_indexed _ (fun w' => random_src w' = src)
              (fun k s => snapshot_at src ("shelf_" +:+ pretty (k + 1)%nat) storeId s)
              (fun i => generateShelfSnapshot ("shelf_" +:+ pretty (i + 1)%nat) storeId)
              (fun i w' Hw' => generateShelfSnapshot_at src _ storeId w' Hw')
              _ [])].
  - intros shelves w' (Hw' & Hshelves & _). cbv beta zeta.
    apply outcome_bind, outcome_Date_now.
    apply outcome_ret.
    cbn [Analytics.store_id Analytics.summary Analytics.shelf_snapshots].
    split; [reflexivity|]. split; [reflexivity|]. exact Hshelves.
  - exact Hsrc.
  - intros k a Hk. rewrite lookup_nil in Hk. discriminate.
Qed.

Lemma generateStoreAnalytics_at storeId numShelves w :
  outcome (~ unit_source w) (generateStoreAnalytics storeId numShelves) w
    (fun a _ => store_at (random_src w) storeId numShelves a).
Proof.
  eapply outcome_weaken;
    [exact (fun x => x) | |
     exact (outcome_and _ _ _ _ _
              (generateStoreAnalytics_outcome storeId numShelves w)
              (generateStoreAnalytics_fields _ storeId numShelves w eq_refl))].
  intros a w' [[Ha _] (Hid & Hsum & Hshelves)].
  unfold store_at. auto.
Qed.

Lemma generateStoreAnalytics_at_normal storeId numShelves w a w' :
  generateStoreAnalytics storeId numShelves w = Normal a w' ->
  store_at (random_src w) storeId numShelves a.
Proof.
  intros E.
  exact (outcome_normal _ _ _ _ _ _
           (generateStoreAnalytics_at storeId numShelves w) E).
Qed.

Lemma generateStoreAnalytics_returns storeId numShelves w :
  unit_source w ->
  exists a w',
    generateStoreAnalytics storeId numShelves w = Normal a w'
    /\ store_at (random_src w) storeId numShelves a.
Proof.
  intros Hunit. apply outcome_total.
  eapply outcome_weaken; [| | apply generateStoreAnalytics_at].
  - intros Hn. exact (Hn Hunit).
  - auto.
Qed.

(** ** Counts as rationals *)

Lemma of_nat_nonneg (n : nat) : 0 <= of_nat n.
Proof. unfold of_nat, Qle. cbn. lia. Qed.

(** ** Snapshots: relations between the fields *)

(** The alert count of a snapshot is the sum of its two flag counts, and
    neither count exceeds the number of products. *)
Theorem snapshot_alerts_sum shelfId storeId w s w' :
  generateShelfSnapshot shelfId storeId w = Normal s w' ->
  let m := Snapshot.metrics s in
  Condition.alerts (Snapshot.condition s)
  = (Metrics.misplaced_count m + Metrics.low_stock_count m)%nat
  /\ (Metrics.misplaced_count m <= Metrics.total_products m)%nat
  /\ (Metrics.low_stock_count m <= Metrics.total_products m)%nat.
Proof.
  intros E.
  destruct (generateShelfSnapshot_built _ _ _ _ _ E) as [(_ & _ & Hm & Hc) _].
  cbv zeta. rewrite Hm, Hc.
  cbn [Condition.alerts Metrics.misplaced_count Metrics.low_stock_count
       Metrics.total_products].
  split; [reflexivity|]. split; apply length_filter.
Qed.

Lemma snapshot_alerts_sum_witness :
  exists s w',
    generateShelfSnapshot "shelf_1" "store_1" (constant_world (1#10)) = Normal s w'
    /\ let m := Snapshot.metrics s in
       Condition.alerts (Snapshot.condition s)
       = (Metrics.misplaced_count m + Metrics.low_stock_count m)%nat
       /\ (Metrics.misplaced_count m <= Metrics.total_products m)%nat
       /\ (Metrics.low_stock_count m <= Metrics.total_products m)%nat.
Proof.
  destruct (generateShelfSnapshot "shelf_1" "store_1" (constant_world (1#10)))
    as [s w'|e] eqn:E.
  - exists s, w'. split; [reflexivity|].
    exact (snapshot_alerts_sum _ _ _ _ _ E).
  - vm_compute in E. discriminate E.
Defined.

Lemma snapshot_at_count src shelfId storeId s :
  unit_src src -> snapshot_at src shelfId storeId s ->
  (10 <= length (Snapshot.detections s) <= 24)%nat.
Proof.
  intros Hunit ([k (Hlen & _)] & _).
  destruct (Hunit k) as [H0 H1].
  pose proof (floor_scale_range _ 15 H0 H1 eq_refl). lia.
Qed.

Lemma bbox_from_range src b :
  unit_src src -> bbox_from src b ->
  (50 <= Bbox.x b <= 1649)%Z /\ (50 <= Bbox.y b <= 849)%Z
  /\ (80 <= Bbox.width b <= 199)%Z /\ (100 <= Bbox.height b <= 249)%Z.
Proof.
  intros Hunit ([kx Hx] & [ky Hy] & [kw Hw] & [kh Hh]).
  rewrite Hx, Hy, Hw, Hh.
  pose proof (floor_scale_range _ 1600 (proj1 (Hunit kx)) (proj2 (Hunit kx)) eq_refl).
  pose proof (floor_scale_range _ 800 (proj1 (Hunit ky)) (proj2 (Hunit ky)) eq_refl).
  pose proof (floor_scale_range _ 120 (proj1 (Hunit kw)) (proj2 (Hunit kw)) eq_refl).
  pose proof (floor_scale_range _ 150 (proj1 (Hunit kh)) (proj2 (Hunit kh)) eq_refl).
  lia.
Qed.

(** Every bounding box lies in the fixed ranges of its four draws: the left
    upper corner within [50,1649] x [50,849], the width within [80,199] and
    the height within [100,249]. *)
Theorem bbox_in_range shelfId storeId w s w' :
  unit_source w ->
  generateShelfSnapshot shelfId storeId w = Normal s w' ->
  Forall (fun d =>
            let b := Detection.bbox d in
            (50 <= Bbox.x b <= 1649)%Z /\ (50 <= Bbox.y b <= 849)%Z
            /\ (80 <= Bbox.width b <= 199)%Z
            /\ (100 <= Bbox.height b <= 249)%Z)
         (Snapshot.detections s).
Proof.
  intros Hunit E.
  destruct (generateShelfSnapshot_at_normal _ _ _ _ _ E) as (_ & _ & _ & _ & _ & Hds).
  apply Forall_lookup_2. intros i d Hd.
  destruct (Hds i d Hd) as (_ & _ & _ & Hb).
  apply (bbox_from_range _ _ Hunit Hb).
Qed.

Lemma bbox_in_range_witness :
  exists s w',
    generateShelfSnapshot "shelf_1" "store_1" (constant_world (1#2)) = Normal s w'
    /\ Forall (fun d =>
            let b := Detection.bbox d in
            (50 <= Bbox.x b <= 1649)%Z /\ (50 <= Bbox.y b <= 849)%Z
            /\ (80 <= Bbox.width b <= 199)%Z
            /\ (100 <= Bbox.height b <= 249)%Z)
         (Snapshot.detections s).
Proof.
  destruct (generateShelfSnapshot "shelf_1" "store_1" (constant_world (1#2)))
    as [s w'|e] eqn:E.
  - exists s, w'. split; [reflexivity|].
    apply (bbox_in_range "shelf_1" "store_1" (constant_world (1#2)) s w').
    + unit_constant.
    + exact E.
  - vm_compute in E. discriminate E.
Defined.

(** The processing time reported by a snapshot is between 80 and 249 ms. *)
Theorem processing_time_range shelfId storeId w s w' :
  unit_source w ->
  generateShelfSnapshot shelfId storeId w = Normal s w' ->
  (80 <= Snapshot.processing_time_ms s <= 249)%Z.
Proof.
  intros Hunit E.
  destruct (generateShelfSnapshot_at_normal _ _ _ _ _ E)
    as (_ & _ & _ & _ & [k Hk] & _).
  rewrite Hk.
  pose proof (floor_scale_range _ 170 (proj1 (Hunit k)) (proj2 (Hunit k)) eq_refl).
  lia.
Qed.

Lemma processing_time_range_witness :
  exists s w',
    generateShelfSnapshot "shelf_1" "store_1" (constant_world (1#2)) = Normal s w'
    /\ (80 <= Snapshot.processing_time_ms s <= 249)%Z.
Proof.
  destruct (generateShelfSnapshot "shelf_1" "store_1" (constant_world (1#2)))
    as [s w'|e] eqn:E.
  - exists s, w'. split; [reflexivity|].
    apply (processing_time_range "shelf_1" "store_1" (constant_world (1#2)) s w').
    + unit_constant.
    + exact E.
  - vm_compute in E. discriminate E.
Defined.

(** ** Snapshots: ranges of the metrics *)

Lemma avgConfidence_finite (ds : list Detection.t) :
  ds <> [] -> exists q, avgConfidence ds = Finite q.
Proof.
  intros Hne. unfold avgConfidence, num_div.
  rewrite of_nat_nonzero by (destruct ds; [congruence | discriminate]).
  eauto.
Qed.

(** The average confidence of a snapshot is a number, never [NaN]: the
    division is by the number of detections, which is at least 10. *)
Theorem snapshot_avg_confidence_finite shelfId storeId w s w' :
  unit_source w ->
  generateShelfSnapshot shelfId storeId w = Normal s w' ->
  exists q, Metrics.avg_confidence (Snapshot.metrics s) = Finite q.
Proof.
  intros Hunit E.
  pose proof (generateShelfSnapshot_at_normal _ _ _ _ _ E) as Hat.
  pose proof (snapshot_at_count _ _ _ _ Hunit Hat) as Hcount.
  destruct (generateShelfSnapshot_built _ _ _ _ _ E) as [(_ & _ & Hm & _) _].
  rewrite Hm. cbn [Metrics.avg_confidence].
  apply avgConfidence_finite.
  intros Hnil. rewrite Hnil in Hcount. cbn in Hcount. lia.
Qed.

Lemma snapshot_avg_confidence_finite_witness :
  exists s w',
    generateShelfSnapshot "shelf_1" "store_1" (constant_world (1#2)) = Normal s w'
    /\ exists q, Metrics.avg_confidence (Snapshot.metrics s) = Finite q.
Proof.
  destruct (generateShelfSnapshot "shelf_1" "store_1" (constant_world (1#2)))
    as [s w'|e] eqn:E.
  - exists s, w'. split; [reflexivity|].
    apply (snapshot_avg_confidence_finite "shelf_1" "store_1"
             (constant_world (1#2)) s w').
    + unit_constant.
    + exact E.
  - vm_compute in E. discriminate E.
Defined.

Lemma remove_dups_length {A} `{EqDecision A} (l : list A) :
  (length (remove_dups l) <= length l)%nat.
Proof.
  induction l as [|x l IH]; cbn [remove_dups length]; [lia|].
  destruct (decide_rel elem_of x l); cbn [length]; lia.
Qed.

Lemma remove_dups_nonempty {A} `{EqDecision A} (l : list A) :
  l <> [] -> (1 <= length (remove_dups l))%nat.
Proof.
  destruct l as [|x l]; [congruence|]. intros _.
  assert (Hx : x ∈ remove_dups (x :: l)) by (apply elem_of_remove_dups; left).
  destruct (remove_dups (x :: l)); [inversion Hx | cbn; lia].
Qed.

Lemma uniqueProducts_le_length (ds : list Detection.t) :
  (uniqueProducts ds <= length ds)%nat.
Proof.
  rewrite uniqueProducts_distinct. unfold SpecMetrics.distinct_productIds.
  etransitivity; [apply remove_dups_length|].
  rewrite length_map. reflexivity.
Qed.

Lemma uniqueProducts_le_catalogue (ds : list Detection.t) :
  Forall (fun d => exists p, p ∈ PRODUCTS
                             /\ Detection.product_id d = Product.id p) ds ->
  (uniqueProducts ds <= length PRODUCTS)%nat.
Proof.
  intros Hds. unfold uniqueProducts.
  rewrite <- (length_map Product.id PRODUCTS).
  rewrite <- (size_list_to_set (C := gset string) _ PRODUCTS_distinct_ids).
  apply subseteq_size. intros x Hx.
  apply elem_of_list_to_set, list_elem_of_In, in_map_iff in Hx as (d & <- & Hd).
  apply list_elem_of_In in Hd.
  destruct (proj1 (Forall_forall _ _) Hds d Hd) as (p & Hp & ->).
  apply elem_of_list_to_set, list_elem_of_In, in_map, list_elem_of_In. exact Hp.
Qed.

(** A snapshot counts at least one and at most ten distinct products, and
    never more than it has detections. *)
Theorem unique_products_range shelfId storeId w s w' :
  unit_source w ->
  generateShelfSnapshot shelfId storeId w = Normal s w' ->
  let m := Snapshot.metrics s in
  (1 <= Metrics.unique_products m <= 10)%nat
  /\ (Metrics.unique_products m <= Metrics.total_products m)%nat.
Proof.
  intros Hunit E.
  pose proof (generateShelfSnapshot_at_normal _ _ _ _ _ E) as Hat.
  pose proof (snapshot_at_count _ _ _ _ Hunit Hat) as Hcount.
  destruct (generateShelfSnapshot_built _ _ _ _ _ E) as [(_ & Hds & Hm & _) _].
  cbv zeta. rewrite Hm. cbn [Metrics.unique_products Metrics.total_products].
  split; [split|].
  - rewrite uniqueProducts_distinct. apply remove_dups_nonempty.
    destruct (Snapshot.detections s); [cbn in Hcount; lia | discriminate].
  - apply (uniqueProducts_le_catalogue _).
    eapply Forall_impl; [exact Hds|]. intros d [Hp _]. exact Hp.
  - apply uniqueProducts_le_length.
Qed.

Lemma unique_products_range_witness :
  exists s w',
    generateShelfSnapshot "shelf_1" "store_1" (constant_world (1#2)) = Normal s w'
    /\ let m := Snapshot.metrics s in
       (1 <= Metrics.unique_products m <= 10)%nat
       /\ (Metrics.unique_products m <= Metrics.total_products m)%nat.
Proof.
  destruct (generateShelfSnapshot "shelf_1" "store_1" (constant_world (1#2)))
    as [s w'|e] eqn:E.
  - exists s, w'. split; [reflexivity|].
    apply (unique_products_range "shelf_1" "store_1" (constant_world (1#2)) s w').
    + unit_constant.
    + exact E.
  - vm_compute in E. discriminate E.
Defined.

Lemma conditionScore_le_136 misplaced lowStock numProducts :
  (numProducts <= 24)%Z -> conditionScore misplaced lowStock numProducts <= 136.
Proof.
  intros Hn. unfold conditionScore. apply Q.max_lub; [discriminate|].
  assert (Hq : inject_Z numProducts <= 24) by (rewrite (Zle_Qle _ 24) in Hn; exact Hn).
  pose proof (of_nat_nonneg misplaced). pose proof (of_nat_nonneg lowStock).
  set (n := inject_Z numProducts) in *.
  set (m := of_nat misplaced) in *. set (l := of_nat lowStock) in *.
  assert (Hexpr : 100 - m * 10 - l * 5 + (n / 20) * 30
                  == 100 - m * 10 - l * 5 + n * (3 # 2)) by field.
  rewrite Hexpr. lra.
Qed.

(** The condition score never exceeds 136, and a snapshot without alerts
    is rated [Excellent]. *)
Theorem score_at_most_136 shelfId storeId w s w' :
  unit_source w ->
  generateShelfSnapshot shelfId storeId w = Normal s w' ->
  let c := Snapshot.condition s in
  0 <= Condition.overall_score c
  /\ Condition.overall_score c <= 136
  /\ (Condition.alerts c = 0%nat ->
      Condition.condition c = "Excellent"%string).
Proof.
  intros Hunit E.
  destruct (generateShelfSnapshot_built _ _ _ _ _ E) as [(_ & _ & Hm & Hc) _].
  pose proof (drawn_numProducts_range w Hunit) as [_ Hhi].
  cbv zeta. split; [|split].
  - rewrite Hc. apply conditionScore_nonneg.
  - rewrite Hc. apply conditionScore_le_136. exact Hhi.
  - intros Halerts.
    assert (H115 : 115 <= Condition.overall_score (Snapshot.condition s)).
    { apply (score_without_flags shelfId storeId w s w' Hunit E);
        rewrite Hm; rewrite Hc in Halerts;
        cbn [Metrics.misplaced_count Metrics.low_stock_count Condition.alerts]
          in Halerts |- *; lia. }
    rewrite Hc in H115 |- *. cbn [Condition.overall_score Condition.condition] in *.
    apply conditionName_thresholds. lra.
Qed.

Lemma score_at_most_136_witness :
  exists s w',
    generateShelfSnapshot "shelf_1" "store_1" (constant_world (1#2)) = Normal s w'
    /\ let c := Snapshot.condition s in
       0 <= Condition.overall_score c
       /\ Condition.overall_score c <= 136
       /\ (Condition.alerts c = 0%nat ->
           Condition.condition c = "Excellent"%string).
Proof.
  destruct (generateShelfSnapshot "shelf_1" "store_1" (constant_world (1#2)))
    as [s w'|e] eqn:E.
  - exists s, w'. split; [reflexivity|].
    apply (score_at_most_136 "shelf_1" "store_1" (constant_world (1#2)) s w').
    + unit_constant.
    + exact E.
  - vm_compute in E. discriminate E.
Defined.

(** ** Identifiers *)

Lemma pretty_N_go_free (x : N) (s : string) :
  free_of "_"%char s -> free_of "_"%char (pretty_N_go x s).
Proof.
  revert s. induction (N.lt_wf_0 x) as [x _ IH]; intros s Hs.
  assert (x = 0 \/ 0 < x)%N as [->|Hx] by lia.
  - rewrite pretty_N_go_0. exact Hs.
  - rewrite pretty_N_go_step by exact Hx. apply IH.
    + apply N.div_lt; [exact Hx | reflexivity].
    + split; [|exact Hs].
      unfold pretty_N_char. repeat case_match; discriminate.
Qed.

Lemma pretty_nat_free (i : nat) : free_of "_"%char (pretty i).
Proof.
  unfold pretty, pretty_nat, pretty, pretty_N.
  case_decide.
  - split; [discriminate | exact I].
  - apply pretty_N_go_free. exact I.
Qed.

(** Two strings without [c], each followed by [c]: the first [c] tells
    where they end. *)
Lemma app_separator_inj (c : Ascii.ascii) (s t a b : string) :
  free_of c s -> free_of c t ->
  s +:+ String c a = t +:+ String c b -> s = t.
Proof.
  revert t. induction s as [|x s IH]; intros [|y t] Hs Ht E; cbn in *.
  - reflexivity.
  - injection E as Ec _. destruct Ht as [Hy _]. congruence.
  - injection E as Ec _. destruct Hs as [Hx _]. congruence.
  - injection E as Exy E. subst y. f_equal.
    apply IH; [exact (proj2 Hs) | exact (proj2 Ht) | exact E].
Qed.

(** The name, category and brand of every detection are those of the
    catalogue product its product id finds. *)
Theorem detection_matches_catalogue shelfId storeId w s w' :
  generateShelfSnapshot shelfId storeId w = Normal s w' ->
  Forall (fun d =>
            exists p,
              find_product (Detection.product_id d) = Some p
              /\ Detection.product_name d = Product.name p
              /\ Detection.category d = Product.category p
              /\ Detection.brand d = Product.brand p)
         (Snapshot.detections s).
Proof.
  intros E.
  destruct (generateShelfSnapshot_at_normal _ _ _ _ _ E) as (_ & _ & _ & _ & _ & Hds).
  apply Forall_lookup_2. intros i d Hd.
  destruct (Hds i d Hd) as ((p & Hp & Hid & Hname & Hcat & Hbrand) & _).
  exists p.
  destruct (proj1 (Forall_forall _ _) PRODUCTS_found p Hp) as (Hfind & _).
  rewrite Hid. auto.
Qed.

Lemma detection_matches_catalogue_witness :
  exists s w',
    generateShelfSnapshot "shelf_1" "store_1" (constant_world (1#3)) = Normal s w'
    /\ Forall (fun d =>
            exists p,
              find_product (Detection.product_id d) = Some p
              /\ Detection.product_name d = Product.name p
              /\ Detection.category d = Product.category p
              /\ Detection.brand d = Product.brand p)
         (Snapshot.detections s).
Proof.
  destruct (generateShelfSnapshot "shelf_1" "store_1" (constant_world (1#3)))
    as [s w'|e] eqn:E.
  - exists s, w'. split; [reflexivity|].
    exact (detection_matches_catalogue _ _ _ _ _ E).
  - vm_compute in E. discriminate E.
Defined.

(** ** The store *)

Lemma store_at_shelf_count src storeId (N : Z) a :
  store_at src storeId N a ->
  length (Analytics.shelf_snapshots a) = Z.to_nat N.
Proof. intros ((Hlen & _) & _). exact Hlen. Qed.

(** The snapshots of a store are those of the shelves [shelf_1], [shelf_2],
    ... in this order, all of the store asked for; no shelf id occurs
    twice. *)
Theorem store_shelf_ids storeId (N : Z) w a w' :
  generateStoreAnalytics storeId N w = Normal a w' ->
  let shelves := Analytics.shelf_snapshots a in
  Analytics.store_id a = storeId
  /\ (forall k s, shelves !! k = Some s ->
        Snapshot.shelf_id s = "shelf_" +:+ pretty (k + 1)%nat
        /\ Snapshot.store_id s = storeId)
  /\ NoDup (map Snapshot.shelf_id shelves).
Proof.
  intros E.
  destruct (generateStoreAnalytics_at_normal _ _ _ _ _ E) as (_ & Hid & _ & Hshelves).
  cbv zeta. split; [exact Hid|].
  assert (Hk : forall k s, Analytics.shelf_snapshots a !! k = Some s ->
                 Snapshot.shelf_id s = "shelf_" +:+ pretty (k + 1)%nat
                 /\ Snapshot.store_id s = storeId).
  { intros k s Hs. destruct (Hshelves k s Hs) as (_ & H1 & H2 & _). auto. }
  split; [exact Hk|].
  change (map Snapshot.shelf_id (Analytics.shelf_snapshots a))
    with (Snapshot.shelf_id <$> Analytics.shelf_snapshots a).
  apply NoDup_alt. intros i j x Hi Hj.
  rewrite list_lookup_fmap in Hi, Hj.
  destruct (Analytics.shelf_snapshots a !! i) as [si|] eqn:Esi; [|discriminate].
  destruct (Analytics.shelf_snapshots a !! j) as [sj|] eqn:Esj; [|discriminate].
  cbn in Hi, Hj.
  destruct (Hk i si Esi) as [Hsi _]. destruct (Hk j sj Esj) as [Hsj _].
  assert (Heq : "shelf_" +:+ pretty (i + 1)%nat = "shelf_" +:+ pretty (j + 1)%nat)
    by congruence.
  apply (inj (String.app "shelf_")), (inj pretty) in Heq. lia.
Qed.

Lemma store_shelf_ids_witness :
  exists a w',
    generateStoreAnalytics "store_1" 3 (constant_world (1#2)) = Normal a w'
    /\ let shelves := Analytics.shelf_snapshots a in
       Analytics.store_id a = "store_1"%string
       /\ (forall k s, shelves !! k = Some s ->
             Snapshot.shelf_id s = "shelf_" +:+ pretty (k + 1)%nat
             /\ Snapshot.store_id s = "store_1"%string)
       /\ NoDup (map Snapshot.shelf_id shelves).
Proof.
  destruct (generateStoreAnalytics "store_1" 3 (constant_world (1#2)))
    as [a w'|e] eqn:E.
  - exists a, w'. split; [reflexivity|].
    exact (store_shelf_ids _ _ _ _ _ E).
  - vm_compute in E. discriminate E.
Defined.

Lemma fold_left_plus {A} (f : A -> nat) (l : list A) (acc : nat) :
  fold_left (fun sum x => (sum + f x)%nat) l acc = (acc + sum_list (map f l))%nat.
Proof.
  revert acc. induction l as [|x l IH]; intros acc; cbn; [lia|].
  rewrite IH. lia.
Qed.

Lemma sum_list_bounds {A} (f : A -> nat) (lo hi : nat) (l : list A) :
  Forall (fun x => (lo <= f x <= hi)%nat) l ->
  (lo * length l <= sum_list (map f l) <= hi * length l)%nat.
Proof.
  induction 1 as [|x l Hx _ IH]; cbn [map sum_list sum_list_with length];
    rewrite ?Nat.mul_0_r, ?Nat.mul_succ_r; unfold id in *; lia.
Qed.

Lemma sum_list_lengths {A B} (f : A -> list B) (l : list A) :
  sum_list (map (fun x => length (f x)) l) = length (flat_map f l).
Proof.
  induction l as [|x l IH]; [reflexivity|].
  cbn [map sum_list sum_list_with flat_map]. rewrite length_app, IH. reflexivity.
Qed.

Lemma snapshot_at_total src shelfId storeId s :
  snapshot_at src shelfId storeId s ->
  Metrics.total_products (Snapshot.metrics s) = length (Snapshot.detections s)
  /\ Condition.alerts (Snapshot.condition s)
     = (misplacedCount (Snapshot.detections s)
        + lowStockCount (Snapshot.detections s))%nat.
Proof.
  intros ([k (_ & _ & Hm & Hc)] & _). rewrite Hm, Hc. auto.
Qed.

(** The summary of a store counts the detections of all its shelves: from
    10 to 24 for each of the N shelves; its alerts are the sum of the alerts
    of the shelves. *)
Theorem store_totals storeId (N : Z) w a w' :
  unit_source w ->
  generateStoreAnalytics storeId N w = Normal a w' ->
  let shelves := Analytics.shelf_snapshots a in
  let sm := Analytics.summary a in
  Summary.total_shelves sm = N
  /\ Summary.total_products sm = length (flat_map Snapshot.detections shelves)
  /\ (10 * length shelves <= Summary.total_products sm <= 24 * length shelves)%nat
  /\ Summary.total_alerts sm
     = sum_list (map (fun s => Condition.alerts (Snapshot.condition s)) shelves).
Proof.
  intros Hunit E.
  destruct (generateStoreAnalytics_at_normal _ _ _ _ _ E) as (_ & _ & Hsum & Hshelves).
  cbv zeta. rewrite Hsum. unfold summary_of.
  cbn [Summary.total_shelves Summary.total_products Summary.total_alerts].
  rewrite !fold_left_plus. cbn [Nat.add].
  assert (Htot : map (fun s => Metrics.total_products (Snapshot.metrics s))
                     (Analytics.shelf_snapshots a)
                 = map (fun s => length (Snapshot.detections s))
                       (Analytics.shelf_snapshots a)).
  { apply map_ext_in. intros s Hs.
    apply list_elem_of_In, list_elem_of_lookup in Hs as [k Hk].
    exact (proj1 (snapshot_at_total _ _ _ _ (Hshelves k s Hk))). }
  rewrite Htot, sum_list_lengths.
  split; [reflexivity|]. split; [reflexivity|]. split; [|reflexivity].
  rewrite <- sum_list_lengths. apply sum_list_bounds.
  apply Forall_lookup_2. intros k s Hk.
  exact (snapshot_at_count _ _ _ _ Hunit (Hshelves k s Hk)).
Qed.

Lemma store_totals_witness :
  exists a w',
    generateStoreAnalytics "store_1" 3 (constant_world (1#2)) = Normal a w'
    /\ let shelves := Analytics.shelf_snapshots a in
       let sm := Analytics.summary a in
       Summary.total_shelves sm = 3%Z
       /\ Summary.total_products sm = length (flat_map Snapshot.detections shelves)
       /\ (10 * length shelves <= Summary.total_products sm <= 24 * length shelves)%nat
       /\ Summary.total_alerts sm
          = sum_list (map (fun s => Condition.alerts (Snapshot.condition s)) shelves).
Proof.
  destruct (generateStoreAnalytics "store_1" 3 (constant_world (1#2)))
    as [a w'|e] eqn:E.
  - exists a, w'. split; [reflexivity|].
    apply (store_totals "store_1" 3 (constant_world (1#2)) a w').
    + unit_constant.
    + exact E.
  - vm_compute in E. discriminate E.
Defined.

Lemma conditionName_good (score : Q) :
  Qle_bool 70 score = true
  <-> conditionName score = "Excellent"%string
      \/ conditionName score = "Good"%string.
Proof.
  unfold conditionName.
  destruct (Qlt_bool score 85) eqn:E85, (Qlt_bool score 70) eqn:E70,
           (Qlt_bool score 50) eqn:E50;
    repeat match goal with
    | H : Qlt_bool _ _ = true |- _ => apply Qlt_bool_iff in H
    | H : Qlt_bool _ _ = false |- _ => apply Qlt_bool_false_iff in H
    end;
    rewrite Qle_bool_iff;
    (split; [intros H | intros [H|H]; try discriminate H]);
    auto; try lra.
Qed.

Lemma shelvesGood_buckets (shelves : list Snapshot.t) :
  Forall (fun s => Condition.condition (Snapshot.condition s)
                   = conditionName (Condition.overall_score (Snapshot.condition s)))
         shelves ->
  length (filter
    (fun s => Qle_bool 70 (Condition.overall_score (Snapshot.condition s)) = true)
    shelves)
  = (shelves_named "Excellent" shelves + shelves_named "Good" shelves)%nat.
Proof.
  unfold shelves_named.
  induction 1 as [|s shelves Hs _ IH]; [reflexivity|].
  rewrite !filter_cons.
  pose proof (conditionName_good (Condition.overall_score (Snapshot.condition s)))
    as Hgood.
  rewrite <- Hs in Hgood.
  repeat case_decide; cbn [length]; rewrite ?IH; try lia;
    try (exfalso; intuition congruence).
Qed.

Lemma snapshot_at_named src shelfId storeId s :
  snapshot_at src shelfId storeId s ->
  Condition.condition (Snapshot.condition s)
  = conditionName (Condition.overall_score (Snapshot.condition s)).
Proof. intros ([k (_ & _ & _ & Hc)] & _). rewrite Hc. reflexivity. Qed.

(** The efficiency score of a store of N > 0 shelves is the share, in
    percent, of the shelves rated [Excellent] or [Good]; it lies between 0
    and 100. *)
Theorem store_efficiency storeId (N : Z) w a w' :
  (0 < N)%Z ->
  generateStoreAnalytics storeId N w = Normal a w' ->
  let p := Analytics.performance a in
  let good := (Performance.excellent_shelves p + Performance.good_shelves p)%nat in
  Summary.efficiency_score (Analytics.summary a)
  = Finite (of_nat good / inject_Z N * 100)
  /\ 0 <= of_nat good / inject_Z N * 100
  /\ of_nat good / inject_Z N * 100 <= 100.
Proof.
  intros HN E.
  destruct (generateStoreAnalytics_at_normal _ _ _ _ _ E)
    as ((Hlen & _ & Hp) & _ & Hsum & Hshelves).
  cbv zeta. rewrite Hsum, Hp. unfold summary_of.
  cbn [Summary.efficiency_score Performance.excellent_shelves
       Performance.good_shelves].
  assert (Hnamed : Forall
            (fun s => Condition.condition (Snapshot.condition s)
                      = conditionName (Condition.overall_score (Snapshot.condition s)))
            (Analytics.shelf_snapshots a)).
  { apply Forall_lookup_2. intros k s Hk.
    exact (snapshot_at_named _ _ _ _ (Hshelves k s Hk)). }
  rewrite (shelvesGood_buckets _ Hnamed).
  set (good := (shelves_named "Excellent" (Analytics.shelf_snapshots a)
                + shelves_named "Good" (Analytics.shelf_snapshots a))%nat).
  assert (HNq : 0 < inject_Z N) by (rewrite (Zlt_Qlt 0 N) in HN; exact HN).
  assert (Hgood : of_nat good <= inject_Z N).
  { unfold of_nat. rewrite <- Zle_Qle.
    assert (good <= length (Analytics.shelf_snapshots a))%nat.
    { subst good. rewrite <- (shelvesGood_buckets _ Hnamed). apply length_filter. }
    lia. }
  split; [|split].
  - unfold num_div, num_mul.
    destruct (Qeq_bool (inject_Z N) 0) eqn:E0; [|reflexivity].
    apply Qeq_bool_eq in E0. rewrite E0 in HNq. discriminate HNq.
  - apply Qmult_le_0_compat; [|discriminate].
    apply Qle_shift_div_l; [exact HNq|]. rewrite Qmult_0_l. apply of_nat_nonneg.
  - assert (Hdiv : of_nat good / inject_Z N <= 1).
    { apply Qle_shift_div_r; [exact HNq|]. rewrite Qmult_1_l. exact Hgood. }
    set (r := of_nat good / inject_Z N) in *. lra.
Qed.

Lemma store_efficiency_witness :
  exists a w',
    generateStoreAnalytics "store_1" 3 (constant_world (1#2)) = Normal a w'
    /\ let p := Analytics.performance a in
       let good :=
         (Performance.excellent_shelves p + Performance.good_shelves p)%nat in
       Summary.efficiency_score (Analytics.summary a)
       = Finite (of_nat good / inject_Z 3 * 100)
       /\ 0 <= of_nat good / inject_Z 3 * 100
       /\ of_nat good / inject_Z 3 * 100 <= 100.
Proof.
  destruct (generateStoreAnalytics "store_1" 3 (constant_world (1#2)))
    as [a w'|e] eqn:E.
  - exists a, w'. split; [reflexivity|].
    apply (store_efficiency "store_1" 3 (constant_world (1#2)) a w').
    + lia.
    + exact E.
  - vm_compute in E. discriminate E.
Defined.

Lemma num_sum_finite {A} (f : A -> number) (l : list A) (acc : Q) :
  Forall (fun x => exists q, f x = Finite q) l ->
  exists total,
    fold_left (fun sum x => num_add sum (f x)) l (Finite acc) = Finite total.
Proof.
  intros Hl. revert acc.
  induction Hl as [|x l [q Hq] _ IH]; intros acc; cbn [fold_left].
  - eauto.
  - rewrite Hq. cbn [num_add]. apply IH.
Qed.

(** The average confidence of a store is a number when there is at least
    one shelf, and [NaN], the result of 0/0, when there is none. *)
Theorem store_avg_confidence_finite storeId (N : Z) w a w' :
  unit_source w ->
  generateStoreAnalytics storeId N w = Normal a w' ->
  if (0 <? N)%Z
  then exists q, Summary.avg_confidence (Analytics.summary a) = Finite q
  else Summary.avg_confidence (Analytics.summary a) = NaN.
Proof.
  intros Hunit E.
  destruct (Z.ltb_spec 0 N) as [HN|HN].
  - destruct (generateStoreAnalytics_at_normal _ _ _ _ _ E)
      as ((Hlen & _ & _) & _ & Hsum & Hshelves).
    rewrite Hsum. unfold summary_of. cbn [Summary.avg_confidence].
    destruct (num_sum_finite
                (fun s => Metrics.avg_confidence (Snapshot.metrics s))
                (Analytics.shelf_snapshots a) 0) as [total Ht].
    { apply Forall_lookup_2. intros k s Hk.
      pose proof (Hshelves k s Hk) as Hat.
      pose proof (snapshot_at_count _ _ _ _ Hunit Hat) as Hcount.
      destruct Hat as ([j (_ & _ & Hm & _)] & _).
      rewrite Hm. cbn [Metrics.avg_confidence].
      apply avgConfidence_finite.
      intros Hnil. rewrite Hnil in Hcount. cbn in Hcount. lia. }
    rewrite Ht. unfold num_div.
    rewrite of_nat_nonzero by lia. eauto.
  - rewrite (generateStoreAnalytics_no_shelves storeId N w HN) in E.
    injection E as <- _. reflexivity.
Qed.

Lemma store_avg_confidence_finite_witness :
  exists a w',
    generateStoreAnalytics "store_1" 3 (constant_world (1#2)) = Normal a w'
    /\ exists q, Summary.avg_confidence (Analytics.summary a) = Finite q.
Proof.
  destruct (generateStoreAnalytics "store_1" 3 (constant_world (1#2)))
    as [a w'|e] eqn:E.
  - exists a, w'. split; [reflexivity|].
    apply (store_avg_confidence_finite "store_1" 3 (constant_world (1#2)) a w').
    + unit_constant.
    + exact E.
  - vm_compute in E. discriminate E.
Defined.

(** ** The request handler *)

(** What [GET] answers, [Math.random()] being in the unit interval: never
    500.  A snapshot of the shelf and store asked for when the type is
    [shelf] and a shelf id is given; the analytics of 12 shelves when the
    type is [store] or missing; 400 otherwise.  The store defaults to
    [store_001]. *)
Theorem GET_response request w :
  unit_source w ->
  let type := or_else (Request.type request) "store" in
  let storeId := or_else (Request.storeId request) "store_001" in
  match body (GET request w) with
  | ShelfJson s =>
      status (GET request w) = 200%Z
      /\ type = "shelf"%string
      /\ (exists shelfId,
            Request.shelfId request = Some shelfId
            /\ shelfId <> ""%string
            /\ Snapshot.shelf_id s = shelfId)
      /\ Snapshot.store_id s = storeId
  | StoreJson a =>
      status (GET request w) = 200%Z
      /\ type = "store"%string
      /\ Analytics.store_id a = storeId
      /\ length (Analytics.shelf_snapshots a) = 12%nat
      /\ Summary.total_shelves (Analytics.summary a) = 12%Z
  | ErrorJson e =>
      status (GET request w) = 400%Z
      /\ e = "Invalid request type"%string
      /\ type <> "store"%string
      /\ (type = "shelf"%string -> truthy (Request.shelfId request) = false)
  end.
Proof.
  intros Hunit. cbv zeta. unfold GET.
  set (type := or_else (Request.type request) "store").
  set (storeId := or_else (Request.storeId request) "store_001").
  destruct (String.eqb type "shelf") eqn:Eshelf;
    [destruct (truthy (Request.shelfId request)) eqn:Etruthy|];
    cbn [andb].
  - apply String.eqb_eq in Eshelf.
    destruct (Request.shelfId request) as [shelfId|] eqn:Esid; [|discriminate].
    cbn [truthy] in Etruthy. apply negb_true_iff, String.eqb_neq in Etruthy.
    change (default ""%string (Some shelfId)) with shelfId.
    destruct (generateShelfSnapshot_returns shelfId storeId w Hunit)
      as (s & w' & E & _).
    rewrite E. cbn [body status].
    destruct (generateShelfSnapshot_at_normal _ _ _ _ _ E) as (_ & H1 & H2 & _).
    repeat split; eauto.
  - apply String.eqb_eq in Eshelf. rewrite Eshelf.
    change (String.eqb "shelf" "store") with false. cbn [body status].
    repeat split; auto; try discriminate.
  - destruct (String.eqb type "store") eqn:Estore.
    + apply String.eqb_eq in Estore.
      destruct (generateStoreAnalytics_returns storeId numShelves_default w Hunit)
        as (a & w' & E & (Hlen & _) & Hid & Hsum & _).
      rewrite E. cbn [body status]. rewrite Hsum.
      repeat split; auto.
    + apply String.eqb_neq in Estore. apply String.eqb_neq in Eshelf.
      cbn [body status]. repeat split; auto; try (intros H; contradiction).
Qed.

Lemma GET_response_witness :
  match body (GET (Request.mk None None None) (constant_world (1#2))) with
  | ShelfJson s =>
      status (GET (Request.mk None None None) (constant_world (1#2))) = 200%Z
      /\ "store"%string = "shelf"%string
      /\ (exists shelfId,
            None = Some shelfId
            /\ shelfId <> ""%string
            /\ Snapshot.shelf_id s = shelfId)
      /\ Snapshot.store_id s = "store_001"%string
  | StoreJson a =>
      status (GET (Request.mk None None None) (constant_world (1#2))) = 200%Z
      /\ "store"%string = "store"%string
      /\ Analytics.store_id a = "store_001"%string
      /\ length (Analytics.shelf_snapshots a) = 12%nat
      /\ Summary.total_shelves (Analytics.summary a) = 12%Z
  | ErrorJson e =>
      status (GET (Request.mk None None None) (constant_world (1#2))) = 400%Z
      /\ e = "Invalid request type"%string
      /\ "store"%string <> "store"%string
      /\ ("store"%string = "shelf"%string -> truthy None = false)
  end.
Proof.
  apply (GET_response (Request.mk None None None) (constant_world (1#2))).
  unit_constant.
Defined.

(** ** The simulation page *)

(** The bar of the page, coloured by the score, and the badge, coloured by
    the name of the condition, have the same colour for every snapshot of
    the route. *)
Theorem bar_matches_badge shelfId storeId w s w' :
  generateShelfSnapshot shelfId storeId w = Normal s w' ->
  same_colour (bar_class (Condition.overall_score (Snapshot.condition s)))
              (badge_class (Condition.condition (Snapshot.condition s))).
Proof.
  intros E.
  destruct (generateShelfSnapshot_built _ _ _ _ _ E) as [(_ & _ & _ & Hc) _].
  rewrite Hc. cbn [Condition.overall_score Condition.condition].
  set (score := conditionScore _ _ _). clearbody score.
  unfold bar_class, conditionName, Qlt_bool.
  destruct (Qle_bool 85 score) eqn:E85, (Qle_bool 70 score) eqn:E70,
           (Qle_bool 50 score) eqn:E50;
    cbn [negb]; try constructor; exfalso;
    repeat match goal with
    | H : Qle_bool _ _ = true |- _ => apply Qle_bool_iff in H
    | H : Qle_bool _ _ = false |- _ =>
        apply not_true_iff_false in H; rewrite Qle_bool_iff in H
    end;
    repeat match goal with
    | H : ~ _ <= _ |- _ => apply H; clear H
    end; lra.
Qed.

Lemma bar_matches_badge_witness :
  exists s w',
    generateShelfSnapshot "shelf_demo" "store_demo" (constant_world (1#20))
    = Normal s w'
    /\ same_colour (bar_class (Condition.overall_score (Snapshot.condition s)))
                   (badge_class (Condition.condition (Snapshot.condition s))).
Proof.
  destruct (generateShelfSnapshot "shelf_demo" "store_demo" (constant_world (1#20)))
    as [s w'|e] eqn:E.
  - exists s, w'. split; [reflexivity|].
    exact (bar_matches_badge _ _ _ _ _ E).
  - vm_compute in E. discriminate E.
Defined.

Lemma slice_last_length {A} (n : nat) (l : list A) :
  length (slice_last n l) = Nat.min (length l) n.
Proof. unfold slice_last. rewrite length_drop. lia. Qed.

Lemma addLog_slice (time message : string) (prev : list string) :
  addLog time message prev = slice_last 10 (prev ++ [log_line time message]).
Proof.
  unfold addLog, slice_last. rewrite length_app. cbn [length].
  replace (length prev + 1 - 10)%nat with (length prev - 9)%nat by lia.
  rewrite drop_app_le by lia. reflexivity.
Qed.

(** One [addLog]: the new line comes last, after the last nine lines of the
    log, so the log never holds more than ten lines. *)
Lemma addLog_window (time message : string) (prev : list string) :
  addLog time message prev
  = slice_last 10 (prev ++ [log_line time message])
  /\ length (addLog time message prev) = S (Nat.min (length prev) 9)
  /\ (length (addLog time message prev) <= 10)%nat
  /\ last (addLog time message prev) = Some (log_line time message).
Proof.
  split; [apply addLog_slice|]. unfold addLog. split; [|split].
  - rewrite length_app, slice_last_length. cbn. lia.
  - rewrite length_app, slice_last_length. cbn. lia.
  - apply last_snoc.
Qed.

Lemma addLogs_snoc calls time message logs :
  addLogs (calls ++ [(time, message)]) logs
  = addLog time message (addLogs calls logs).
Proof. unfold addLogs. rewrite fold_left_app. reflexivity. Qed.

Lemma addLogs_slice (calls : list (string * string)) (logs : list string) :
  calls <> [] ->
  addLogs calls logs
  = slice_last 10 (logs ++ map (fun c => log_line (fst c) (snd c)) calls).
Proof.
  induction calls as [|[time message] calls IH] using rev_ind; [congruence|].
  intros _. rewrite addLogs_snoc, map_app. cbn [map fst snd].
  rewrite addLog_slice.
  destruct calls as [|c calls].
  - reflexivity.
  - rewrite IH by discriminate.
    set (old := logs ++ map (fun c => log_line (fst c) (snd c)) (c :: calls)).
    rewrite app_assoc. fold old.
    unfold slice_last. rewrite !length_app, length_drop. cbn [length].
    destruct (Nat.le_gt_cases (length old) 10) as [Hle|Hgt].
    + replace (length old - 10)%nat with 0%nat by lia.
      rewrite Nat.sub_0_r. reflexivity.
    + set (k := (length old - 10)%nat).
      replace (length old - k + 1 - 10)%nat with 1%nat by lia.
      replace (length old + 1 - 10)%nat with (k + 1)%nat by lia.
      rewrite <- (drop_app_le old [log_line time message] k) by lia.
      rewrite drop_drop. reflexivity.
Qed.

(** After any sequence of [addLog], at least one, the log is the last ten
    lines of the old log followed by the new lines, however long the old log
    was: it never shows more than ten lines and the newest is the last. *)
Theorem addLogs_last_ten (calls : list (string * string)) (logs : list string) :
  calls <> [] ->
  addLogs calls logs
  = slice_last 10 (logs ++ map (fun c => log_line (fst c) (snd c)) calls)
  /\ (length (addLogs calls logs) <= 10)%nat
  /\ last (addLogs calls logs)
     = last (map (fun c => log_line (fst c) (snd c)) calls).
Proof.
  intros Hne. split; [apply addLogs_slice; exact Hne|]. split.
  - rewrite (addLogs_slice _ _ Hne), slice_last_length. lia.
  - destruct calls as [|c calls] using rev_ind; [congruence|].
    destruct c as [time message].
    rewrite addLogs_snoc, map_app. cbn [map fst snd].
    unfold addLog. rewrite !last_snoc. reflexivity.
Qed.

Lemma addLogs_last_ten_witness :
  addLogs [("10:00:00", "a"); ("10:00:01", "b")]%string ["old"%string]
  = slice_last 10
      (["old"%string]
       ++ map (fun c => log_line (fst c) (snd c))
              [("10:00:00", "a"); ("10:00:01", "b")]%string)
  /\ (length (addLogs [("10:00:00", "a"); ("10:00:01", "b")]%string
                      ["old"%string]) <= 10)%nat
  /\ last (addLogs [("10:00:00", "a"); ("10:00:01", "b")]%string ["old"%string])
     = last (map (fun c => log_line (fst c) (snd c))
                 [("10:00:00", "a"); ("10:00:01", "b")]%string).
Proof.
  apply (addLogs_last_ten [("10:00:00", "a"); ("10:00:01", "b")]%string
           ["old"%string]).
  discriminate.
Defined.

(** ** Timestamps *)

(** The loop once more, the invariant of the world following the index. *)
Lemma outcome_for_push_stepwise {A} t (inv : nat -> World -> Prop)
    (P : nat -> A -> Prop) (body : nat -> JS A) :
  (forall i w, inv i w ->
     outcome t (body i) w (fun a w' => P i a /\ inv (S i) w')) ->
  forall steps acc w,
    inv (length acc) w -> (forall k a, acc !! k = Some a -> P k a) ->
    outcome t (for_push body (length acc) steps acc) w
      (fun l w' => inv (length l) w'
                   /\ (forall k a, l !! k = Some a -> P k a)
                   /\ length l = (length acc + steps)%nat).
Proof.
  intros Hbody steps.
  induction steps as [|steps IH]; intros acc w Hinv Hacc; cbn [for_push].
  - apply outcome_ret. repeat split; auto.
  - apply outcome_bind.
    eapply outcome_weaken;
      [exact (fun x => x) | | exact (Hbody (length acc) w Hinv)].
    intros a w' [Ha Hw'].
    assert (Hlen : length (acc ++ [a]) = S (length acc))
      by (rewrite length_app; cbn; lia).
    rewrite <- Hlen in Hw' |- *.
    eapply outcome_weaken; [exact (fun x => x) | | apply IH; [exact Hw'|]].
    + intros l w'' (? & ? & Hl). repeat split; auto. rewrite Hl, Hlen. lia.
    + intros k b Hk. apply lookup_snoc_Some in Hk as [[_ Hk]|[-> <-]].
      * exact (Hacc k b Hk).
      * exact Ha.
Qed.

Lemma generateDetection_clock shelfId i w :
  outcome True (generateDetection shelfId i) w
    (fun d w' =>
       Detection.timestamp d = clock_src w (S (clock_pos w))
       /\ clock_src w' = clock_src w
       /\ clock_pos w' = S (S (clock_pos w))).
Proof.
  unfold generateDetection.
  js_step. cbv beta zeta. js_step.
  destruct (index PRODUCTS _) as [product|]; [|exact I].
  do 8 js_step.
  apply outcome_ret. cbn [Detection.timestamp]. auto.
Qed.

(** The clock readings behind the timestamps: the detection of index [i]
    carries the reading number [2 i + 1] after the start, the snapshot the
    one after all its detections. *)
Lemma generateShelfSnapshot_clock shelfId storeId w :
  outcome True (generateShelfSnapshot shelfId storeId) w
    (fun s _ =>
       (forall i d, Snapshot.detections s !! i = Some d ->
          Detection.timestamp d = clock_src w (clock_pos w + 2 * i + 1)%nat)
       /\ Snapshot.timestamp s
          = clock_src w
              (clock_pos w + 2 * length (Snapshot.detections s) + 1)%nat).
Proof.
  unfold generateShelfSnapshot.
  apply outcome_bind, outcome_random_int.
  apply outcome_bind.
  eapply outcome_weaken;
    [exact (fun x => x) | |
     apply (outcome_for_push_stepwise True
              (fun i w' => clock_src w' = clock_src w
                           /\ clock_pos w' = (clock_pos w + 2 * i)%nat)
              (fun i d => Detection.timestamp d
                          = clock_src w (clock_pos w + 2 * i + 1)%nat)
              (generateDetection shelfId)) with (acc := [])].
  - intros ds w' ((Hsrc & Hpos) & Hds & _). cbv beta zeta.
    do 2 apply outcome_bind, outcome_Date_now.
    apply outcome_bind, outcome_random_int.
    apply outcome_ret.
    cbn [Snapshot.detections Snapshot.timestamp clock_src clock_pos].
    split; [exact Hds|]. rewrite Hsrc, Hpos. f_equal. lia.
  - intros i w' [Hsrc Hpos].
    eapply outcome_weaken; [exact (fun x => x) | | apply generateDetection_clock].
    intros d w'' (Hts & Hsrc' & Hpos'). rewrite Hsrc, Hpos in *.
    repeat split; [rewrite Hts; f_equal; lia | exact Hsrc' | lia].
  - cbn [length clock_src clock_pos]. split; [reflexivity | lia].
  - intros k a Hk. rewrite lookup_nil in Hk. discriminate.
Qed.

(** With a clock that does not run backwards, the timestamps of the
    detections of a snapshot are in the order of the list, and none is
    later than the timestamp of the snapshot. *)
Theorem timestamps_ordered shelfId storeId w s w' :
  (forall i j, (i <= j)%nat -> (clock_src w i <= clock_src w j)%Z) ->
  generateShelfSnapshot shelfId storeId w = Normal s w' ->
  (forall i j di dj,
     (i <= j)%nat ->
     Snapshot.detections s !! i = Some di ->
     Snapshot.detections s !! j = Some dj ->
     (Detection.timestamp di <= Detection.timestamp dj)%Z)
  /\ Forall (fun d => (Detection.timestamp d <= Snapshot.timestamp s)%Z)
            (Snapshot.detections s).
Proof.
  intros Hclock E.
  destruct (outcome_normal _ _ _ _ _ _
              (generateShelfSnapshot_clock shelfId storeId w) E) as [Hds Hs].
  split.
  - intros i j di dj Hij Hi Hj.
    rewrite (Hds i di Hi), (Hds j dj Hj). apply Hclock. lia.
  - apply Forall_lookup_2. intros i d Hd.
    rewrite (Hds i d Hd), Hs. apply Hclock.
    apply lookup_lt_Some in Hd. lia.
Qed.

Lemma timestamps_ordered_witness :
  exists s w',
    generateShelfSnapshot "shelf_1" "store_1" (constant_world (1#2)) = Normal s w'
    /\ (forall i j di dj,
          (i <= j)%nat ->
          Snapshot.detections s !! i = Some di ->
          Snapshot.detections s !! j = Some dj ->
          (Detection.timestamp di <= Detection.timestamp dj)%Z)
    /\ Forall (fun d => (Detection.timestamp d <= Snapshot.timestamp s)%Z)
              (Snapshot.detections s).
Proof.
  destruct (generateShelfSnapshot "shelf_1" "store_1" (constant_world (1#2)))
    as [s w'|e] eqn:E.
  - exists s, w'. split; [reflexivity|].
    apply (timestamps_ordered "shelf_1" "store_1" (constant_world (1#2)) s w').
    + intros i j _. cbn. lia.
    + exact E.
  - vm_compute in E. discriminate E.
Defined.

(** ** Identifiers and the clock *)

Lemma generateDetection_id_clock shelfId i w :
  outcome True (generateDetection shelfId i) w
    (fun d w' =>
       Detection.detection_id d
       = "det_" +:+ shelfId +:+ "_" +:+ pretty i +:+ "_"
         +:+ pretty (clock_src w (clock_pos w))
       /\ clock_src w' = clock_src w
       /\ clock_pos w' = S (S (clock_pos w))).
Proof.
  unfold generateDetection.
  js_step. cbv beta zeta. js_step.
  destruct (index PRODUCTS _) as [product|]; [|exact I].
  do 8 js_step.
  apply outcome_ret. cbn [Detection.detection_id]. auto.
Qed.

(** The clock readings behind the ids: the detection of index [i] carries
    the reading number [2 i] after the start, the snapshot the first reading
    after all its detections. *)
Lemma generateShelfSnapshot_id_clock shelfId storeId w :
  outcome True (generateShelfSnapshot shelfId storeId) w
    (fun s _ =>
       (forall i d, Snapshot.detections s !! i = Some d ->
          Detection.detection_id d
          = "det_" +:+ shelfId +:+ "_" +:+ pretty i +:+ "_"
            +:+ pretty (clock_src w (clock_pos w + 2 * i)%nat))
       /\ Snapshot.snapshot_id s
          = "snap_" +:+ shelfId +:+ "_"
            +:+ pretty (clock_src w
                          (clock_pos w + 2 * length (Snapshot.detections s))%nat)).
Proof.
  unfold generateShelfSnapshot.
  apply outcome_bind, outcome_random_int.
  apply outcome_bind.
  eapply outcome_weaken;
    [exact (fun x => x) | |
     apply (outcome_for_push_stepwise True
              (fun i w' => clock_src w' = clock_src w
                           /\ clock_pos w' = (clock_pos w + 2 * i)%nat)
              (fun i d => Detection.detection_id d
                          = "det_" +:+ shelfId +:+ "_" +:+ pretty i +:+ "_"
                            +:+ pretty (clock_src w (clock_pos w + 2 * i)%nat))
              (generateDetection shelfId)) with (acc := [])].
  - intros ds w' ((Hsrc & Hpos) & Hds & _). cbv beta zeta.
    do 2 apply outcome_bind, outcome_Date_now.
    apply outcome_bind, outcome_random_int.
    apply outcome_ret.
    cbn [Snapshot.detections Snapshot.snapshot_id clock_src clock_pos].
    split; [exact Hds|]. rewrite Hsrc, Hpos. reflexivity.
  - intros i w' [Hsrc Hpos].
    eapply outcome_weaken;
      [exact (fun x => x) | | apply generateDetection_id_clock].
    intros d w'' (Hid & Hsrc' & Hpos'). rewrite Hsrc, Hpos in *.
    repeat split; [exact Hid | exact Hsrc' | lia].
  - cbn [length clock_src clock_pos]. split; [reflexivity | lia].
  - intros k a Hk. rewrite lookup_nil in Hk. discriminate.
Qed.

(** A snapshot carries the shelf and store it was asked for.  Its id is
    [snap_<shelf>_<now>] and the id of its detection of index [i] is
    [det_<shelf>_<i>_<now>], each [now] being the reading of the clock taken
    for it; the ids of the detections are pairwise different, whatever the
    clock reads. *)
Theorem snapshot_ids shelfId storeId w s w' :
  generateShelfSnapshot shelfId storeId w = Normal s w' ->
  let ds := Snapshot.detections s in
  Snapshot.shelf_id s = shelfId
  /\ Snapshot.store_id s = storeId
  /\ Snapshot.snapshot_id s
     = "snap_" +:+ shelfId +:+ "_"
       +:+ pretty (clock_src w (clock_pos w + 2 * length ds)%nat)
  /\ (forall i d, ds !! i = Some d ->
        Detection.detection_id d
        = "det_" +:+ shelfId +:+ "_" +:+ pretty i +:+ "_"
          +:+ pretty (clock_src w (clock_pos w + 2 * i)%nat))
  /\ NoDup (map Detection.detection_id ds).
Proof.
  intros E. cbv zeta.
  destruct (generateShelfSnapshot_at_normal _ _ _ _ _ E)
    as (_ & Hshelf & Hstore & _).
  destruct (outcome_normal _ _ _ _ _ _
              (generateShelfSnapshot_id_clock shelfId storeId w) E) as [Hds Hid].
  repeat (split; [assumption|]).
  change (map Detection.detection_id (Snapshot.detections s))
    with (Detection.detection_id <$> Snapshot.detections s).
  apply NoDup_alt. intros i j x Hi Hj.
  rewrite list_lookup_fmap in Hi, Hj.
  destruct (Snapshot.detections s !! i) as [di|] eqn:Edi; [|discriminate].
  destruct (Snapshot.detections s !! j) as [dj|] eqn:Edj; [|discriminate].
  cbn in Hi, Hj.
  assert (Heq : Detection.detection_id di = Detection.detection_id dj) by congruence.
  rewrite (Hds i di Edi), (Hds j dj Edj) in Heq.
  apply (inj (String.app "det_")), (inj (String.app shelfId)),
        (inj (String.app "_")) in Heq.
  apply (inj pretty).
  eapply app_separator_inj; [apply pretty_nat_free | apply pretty_nat_free |].
  exact Heq.
Qed.

Lemma snapshot_ids_witness :
  exists s w',
    generateShelfSnapshot "shelf_1" "store_1" (constant_world (1#2)) = Normal s w'
    /\ let ds := Snapshot.detections s in
       Snapshot.shelf_id s = "shelf_1"%string
       /\ Snapshot.store_id s = "store_1"%string
       /\ Snapshot.snapshot_id s
          = "snap_" +:+ "shelf_1" +:+ "_"
            +:+ pretty (clock_src (constant_world (1#2))
                          (clock_pos (constant_world (1#2)) + 2 * length ds)%nat)
       /\ (forall i d, ds !! i = Some d ->
             Detection.detection_id d
             = "det_" +:+ "shelf_1" +:+ "_" +:+ pretty i +:+ "_"
               +:+ pretty (clock_src (constant_world (1#2))
                             (clock_pos (constant_world (1#2)) + 2 * i)%nat))
       /\ NoDup (map Detection.detection_id ds).
Proof.
  destruct (generateShelfSnapshot "shelf_1" "store_1" (constant_world (1#2)))
    as [s w'|e] eqn:E.
  - exists s, w'. split; [reflexivity|].
    exact (snapshot_ids _ _ _ _ _ E).
  - vm_compute in E. discriminate E.
Defined.
